(** * cfdev: the deployment progress monitor and the director connection
      ([bosh/bosh.go]), the analytics response handlers
      ([analyticsd/command]), and the Hyper-V supervisor's [Start] contract
      with the naming of its test VM ([hypervisor/hyperv_test.go]).

    The monitor talks to a BOSH director ([boshdir.Director]), an external
    service.  The director is a parameter of the development: a script
    that fixes, for every call the program may make, what that call
    answers.  The program threads an environment through its calls that
    counts them and logs the director operations, so that "which calls
    were made, in what order, with what answers" is a value theorems can
    talk about. *)

From stdpp Require Import base strings list gmap.
From Stdlib Require Import ZArith Lia Sorted.

Local Open Scope Z_scope.
Local Open Scope list_scope.

(** ** Go values *)

(** A Go [error] value; only its presence matters to the monitor. *)
Definition error := string.

(** The outcome of a Go call returning [(T, error)]: the value, or the
    error.  Every caller below but one drops the value when the error is
    not nil; the exception is [dep.VMInfos()] in [GetVMProgress], whose
    slice is counted also after an error, so the director's script gives
    that slice separately ([vm_infos_on_error]). *)
Inductive result (A : Type) : Type :=
| Ok (a : A)
| Err (e : error).
Arguments Ok {A} a.
Arguments Err {A} e.

Definition is_ok {A} (r : result A) : bool :=
  match r with Ok _ => true | Err _ => false end.

(** [err != nil] *)
Definition notnil (err : option error) : bool :=
  match err with Some _ => true | None => false end.

(** [len(s)] of a Go slice, an [int]. *)
Definition len {A} (s : list A) : Z := Z.of_nat (length s).

(** [time.Time] as nanoseconds, [time.Duration] as an [int64] count of
    nanoseconds.  [t.Sub(u)] is the difference, clamped to the range of
    [Duration] when it does not fit. *)
Definition Time := Z.
Definition minDuration : Z := - 2 ^ 63.
Definition maxDuration : Z := 2 ^ 63 - 1.
Definition Sub (t u : Time) : Z :=
  if t - u <? minDuration then minDuration
  else if maxDuration <? t - u then maxDuration
  else t - u.

(** ** The director interface *)

Module Director.

(** [boshdir.VMInfo]: the two fields the monitor reads. *)
Record VMInfo := {
  ProcessState : string;
  Processes : list string
}.

(** [boshdir.Deployment], a handle on a named deployment. *)
Record Deployment := { dep_name : string }.

Definition Release := string.

(** The director operations the monitor uses. *)
Inductive Call :=
| OpFindDeployment (name : string)
| OpVMInfos (dep : Deployment)
| OpReleases.

(** What the director answers: the [i]-th call of each operation (counted
    from 0 per operation) gets the [i]-th answer; [now i] is the [i]-th
    reading of the wall clock.  When the [i]-th [VMInfos] call fails,
    [vm_infos_on_error] is the slice it returns next to the error (the
    director client returns nil there; the interface does not promise
    it). *)
Record t := {
  find_deployment : string -> nat -> result Deployment;
  vm_infos : Deployment -> nat -> result (list VMInfo);
  vm_infos_on_error : Deployment -> nat -> list VMInfo;
  releases : nat -> result (list Release);
  now : nat -> Time
}.

(** The two values [vmInfos, err := dep.VMInfos()] receives at the [i]-th
    call. *)
Definition VMInfos_returns (d : t) (dep : Deployment) (i : nat)
  : list VMInfo * option error :=
  match vm_infos d dep i with
  | Ok l => (l, None)
  | Err err => (vm_infos_on_error d dep i, Some err)
  end.

End Director.
Import Director.

(** ** Environment and monad *)

(** How many calls of each kind were made so far, and the director
    operations in the order they were issued (oldest first). *)
Record Env := {
  n_find : nat;
  n_vminfos : nat;
  n_releases : nat;
  n_now : nat;
  calls : list Call
}.

Definition env0 : Env :=
  {| n_find := 0; n_vminfos := 0; n_releases := 0; n_now := 0; calls := [] |}.

(** A computation either returns a value and the next environment, or
    does not return ([None]): the unbounded [for] loops are run on fuel. *)
Definition M (A : Type) : Type := Env -> option (A * Env).

Definition ret {A} (a : A) : M A := fun e => Some (a, e).
Definition bind {A B} (m : M A) (k : A -> M B) : M B :=
  fun e => match m e with
           | Some (a, e') => k a e'
           | None => None
           end.
Definition spin {A} : M A := fun _ => None.

Notation "x <- c ;; k" := (bind c (fun x => k))
  (at level 100, c at next level, right associativity).

(** ** bosh.go *)

Definition UploadingReleases : string := "uploading-releases".
Definition Deploying : string := "deploying".
Definition RunningErrand : string := "running-errand".

(** [type VMProgress struct]; an omitted field of a struct literal is the
    zero value. *)
Record VMProgress := {
  State : string;
  Releases : Z;
  Total : Z;
  Done : Z;
  Duration : Z
}.

(** A [chan VMProgress]; [make(chan VMProgress, n)] fixes its capacity. *)
Record Chan := { chan_cap : nat }.
Definition make_chan (capacity : nat) : Chan := {| chan_cap := capacity |}.

Inductive ChanOp :=
| Send (p : VMProgress)   (* ch <- p *)
| Close.                  (* close(ch) *)

(** The variables the goroutine's closure captures; [total] is the one
    it assigns. *)
Record Goroutine := {
  g_start : Time;
  g_dep : Deployment;
  g_total : Z
}.

(** How one pass through the body of the goroutine's [for] ends:
    [continue] or falling off the end of the body, or [return]. *)
Inductive Flow := Continue | Return.

Module Bosh.
Section WithDirector.

(** [b.dir] *)
Variable dir : Director.t.

(** [time.Now()] *)
Definition Now : M Time := fun e =>
  Some (now dir (n_now e),
        {| n_find := n_find e; n_vminfos := n_vminfos e;
           n_releases := n_releases e; n_now := S (n_now e);
           calls := calls e |}).

(** [b.dir.FindDeployment(name)] *)
Definition dir_FindDeployment (name : string) : M (result Deployment) :=
  fun e =>
  Some (find_deployment dir name (n_find e),
        {| n_find := S (n_find e); n_vminfos := n_vminfos e;
           n_releases := n_releases e; n_now := n_now e;
           calls := calls e ++ [OpFindDeployment name] |}).

(** [dep.VMInfos()] *)
Definition dep_VMInfos (dep : Deployment)
  : M (list VMInfo * option error) :=
  fun e =>
  Some (VMInfos_returns dir dep (n_vminfos e),
        {| n_find := n_find e; n_vminfos := S (n_vminfos e);
           n_releases := n_releases e; n_now := n_now e;
           calls := calls e ++ [OpVMInfos dep] |}).

(** [b.dir.Releases()] *)
Definition dir_Releases : M (result (list Release)) := fun e =>
  Some (releases dir (n_releases e),
        {| n_find := n_find e; n_vminfos := n_vminfos e;
           n_releases := S (n_releases e); n_now := n_now e;
           calls := calls e ++ [OpReleases] |}).

(** The handle resolution both entry points start with:
    [for { dep, err = b.dir.FindDeployment(name); if err == nil { break } }].
    No sleep, no bound: it returns only if some attempt succeeds. *)
Fixpoint findLoop (fuel : nat) (deploymentName : string) : M Deployment :=
  match fuel with
  | O => spin
  | S fuel' =>
      r <- dir_FindDeployment deploymentName ;;
      match r with
      | Ok dep => ret dep
      | Err _ => findLoop fuel' deploymentName
      end
  end.

(** [v.ProcessState == "running" && len(v.Processes) > 0] *)
Definition converged (v : VMInfo) : bool :=
  String.eqb (ProcessState v) "running" && (0 <? len (Processes v)).

(** [numDone := 0; for _, v := range vmInfos { if ... { numDone++ } }].
    The counter never exceeds [len(vmInfos)], so [numDone++] does not
    wrap. *)
Definition countDone (vmInfos : list VMInfo) : Z :=
  fold_left (fun numDone v => if converged v then numDone + 1 else numDone)
            vmInfos 0.

(** Lines 142-150 of [GetVMProgress]. *)
Definition deployingSnapshot (start : Time) (vmInfos : list VMInfo)
  : M VMProgress :=
  let total := len vmInfos in
  let numDone := countDone vmInfos in
  t <- Now ;;
  ret {| State := Deploying; Releases := 0; Total := total;
         Done := numDone; Duration := Sub t start |}.

Definition GetVMProgress (fuel : nat) (start : Time)
    (deploymentName : string) (isErrand : bool) : M VMProgress :=
  if isErrand then
    t <- Now ;;
    ret {| State := RunningErrand; Releases := 0; Total := 0; Done := 0;
           Duration := Sub t start |}
  else
    dep <- findLoop fuel deploymentName ;;
    r <- dep_VMInfos dep ;;
    let (vmInfos, err) := r in
    if notnil err || (len vmInfos =? 0) then
      rr <- dir_Releases ;;
      match rr with
      | Ok rels =>
          t <- Now ;;
          ret {| State := UploadingReleases; Releases := len rels;
                 Total := 0; Done := 0; Duration := Sub t start |}
      | Err _ => deployingSnapshot start vmInfos
      end
    else deployingSnapshot start vmInfos.


(** *** The streaming entry point

    [VMProgress] returns a channel and starts a goroutine that writes to
    it.  The goroutine is the only writer, so what a consumer of the
    capacity-1 channel receives is the sequence of the goroutine's channel
    operations, in order: a send blocks until there is room, nothing is
    dropped.  The goroutine is modelled by that sequence. *)

(** One iteration of the goroutine's loop (lines 86-112), after
    [time.Sleep(VMProgressInterval)]: the channel operations it performs,
    the captured variables afterwards, and whether the loop goes on. *)
Definition tick (g : Goroutine) : M (list ChanOp * Goroutine * Flow) :=
  r <- dep_VMInfos (g_dep g) ;;
  let (vmInfos, err) := r in
  if notnil err || (len vmInfos =? 0) then
    if g_total g =? 0 then
      rr <- dir_Releases ;;
      match rr with
      | Ok rels =>
          t <- Now ;;
          ret ([Send {| State := ""; Releases := len rels; Total := 0;
                        Done := 0; Duration := Sub t (g_start g) |}],
               g, Continue)
      | Err _ => ret ([], g, Continue)
      end
    else ret ([], g, Continue)
  else
    let total := len vmInfos in
    let numDone := countDone vmInfos in
    t <- Now ;;
    let g' := {| g_start := g_start g; g_dep := g_dep g;
                 g_total := total |} in
    let p := {| State := ""; Releases := 0; Total := total;
                Done := numDone; Duration := Sub t (g_start g) |} in
    if numDone >=? len vmInfos
    then ret ([Send p; Close], g', Return)
    else ret ([Send p], g', Continue).

(** The goroutine's [for] loop, observed for at most [ticks] iterations:
    everything it did to the channel, and whether it has returned. *)
Fixpoint loop (ticks : nat) (g : Goroutine) : M (list ChanOp * Flow) :=
  match ticks with
  | O => ret ([], Continue)
  | S ticks' =>
      step <- tick g ;;
      match step with
      | (ops, _, Return) => ret (ops, Return)
      | (ops, g', Continue) =>
          rest <- loop ticks' g' ;;
          ret (ops ++ fst rest, snd rest)
      end
  end.

(** [func (b *Bosh) VMProgress(deploymentName string) chan VMProgress]:
    what the call itself does before it returns the channel, and the
    goroutine it has started by then. *)
Definition VMProgress (fuel : nat) (deploymentName : string)
  : M (Chan * Goroutine) :=
  start <- Now ;;
  dep <- findLoop fuel deploymentName ;;
  let ch := make_chan 1 in
  let total := 0 in
  ret (ch, {| g_start := start; g_dep := dep; g_total := total |}).

End WithDirector.
End Bosh.

(** ** The Hyper-V supervisor

    [hypervisor/hyperv.go] is not part of the sources at hand; its tests
    are.  [Start] is modelled from the specification of the supervisor and
    of the hypervisor command interface it consumes. *)

Module HyperV.

Inductive PowerState := Off | Running.

(** The commands of the hypervisor interface that [Start] can issue. *)
Inductive Command :=
| CmdStart (name : string).

(** What the hypervisor's [start(name)] can report. *)
Inductive HvError := HvNotFound.

Inductive Error :=
| NotFoundError (msg : string).

(** The hypervisor: the VMs it knows, by name, and the commands it has
    received (oldest first). *)
Record Host := {
  vms : gmap string PowerState;
  issued : list Command
}.

(** Modelled from the spec: the hypervisor's [start(name) -> error], which
    "must surface a distinguishable not-found condition for start on a
    nonexistent VM"; starting a VM that runs already leaves it running. *)
Definition hv_start (name : string) (h : Host) : option HvError * Host :=
  let log := issued h ++ [CmdStart name] in
  match vms h !! name with
  | None => (Some HvNotFound, {| vms := vms h; issued := log |})
  | Some _ =>
      (None, {| vms := <[name := Running]> (vms h); issued := log |})
  end.

(** [fmt.Sprintf("hyperv vm with name %s does not exist", vmName)], the
    message the test of [Start] matches. *)
Definition notFoundMessage (vmName : string) : string :=
  "hyperv vm with name " +:+ vmName +:+ " does not exist".

(** Modelled from the spec: [Start], absent from the sources.  "Requires
    the VM to exist.  If it does not exist, fails with NotFoundError
    carrying a message of the form hyperv vm with name <name> does not
    exist.  If the VM exists and is already running, the operation is
    idempotent and succeeds without error.  If the VM exists and is off,
    it is started."  The error is "fatal to that call, not retried
    internally". *)
Definition Start (name : string) (h : Host) : option Error * Host :=
  match hv_start name h with
  | (Some HvNotFound, h') => (Some (NotFoundError (notFoundMessage name)), h')
  | (None, h') => (None, h')
  end.

Definition empty_host : Host := {| vms := ∅; issued := [] |}.

End HyperV.

(** ** Directors to run the monitor against *)

Module Scenario.

Definition cf : Deployment := {| dep_name := "cf" |}.

Definition vm (state : string) (processes : list string) : VMInfo :=
  {| ProcessState := state; Processes := processes |}.

(** The deployment appears at the third lookup.  The instance list is
    unavailable, then empty, then has three instances of which two have
    converged, then two instances that both have.  The release catalog
    answers once and fails afterwards. *)
Definition rollout : Director.t :=
  {| find_deployment := fun _ i =>
       if (i <? 2)%nat then Err "deployment not found" else Ok cf;
     vm_infos := fun _ i =>
       match i with
       | 0%nat => Err "task failed"
       | 1%nat => Ok []
       | 2%nat => Ok [vm "running" ["gorouter"]; vm "starting" [];
                      vm "running" ["uaa"; "consul"]]
       | _ => Ok [vm "running" ["gorouter"]; vm "running" ["uaa"]]
       end;
     vm_infos_on_error := fun _ _ => [];
     releases := fun i =>
       match i with
       | 0%nat => Ok ["cf"; "bosh-dns"]
       | _ => Err "connection refused"
       end;
     now := fun i => 1000 * Z.of_nat i |}.

(** A deployment without instances on a director without releases. *)
Definition blank : Director.t :=
  {| find_deployment := fun _ _ => Ok cf;
     vm_infos := fun _ _ => Ok [];
     vm_infos_on_error := fun _ _ => [];
     releases := fun _ => Ok [];
     now := fun i => Z.of_nat i |}.

(** A director that knows the deployment and fails every other query. *)
Definition failing : Director.t :=
  {| find_deployment := fun _ _ => Ok cf;
     vm_infos := fun _ _ => Err "task failed";
     vm_infos_on_error := fun _ _ => [];
     releases := fun _ => Err "connection refused";
     now := fun i => Z.of_nat i |}.

(** A director on which the deployment never appears. *)
Definition unreachable : Director.t :=
  {| find_deployment := fun _ _ => Err "deployment not found";
     vm_infos := fun _ _ => Err "task failed";
     vm_infos_on_error := fun _ _ => [];
     releases := fun _ => Err "connection refused";
     now := fun i => Z.of_nat i |}.

(** A director that knows the deployment; its instance-list request fails
    and still hands back two instances with the error, and its release
    catalog fails. *)
Definition stale : Director.t :=
  {| find_deployment := fun _ _ => Ok cf;
     vm_infos := fun _ _ => Err "task failed";
     vm_infos_on_error := fun _ _ =>
       [vm "running" ["gorouter"]; vm "starting" []];
     releases := fun _ => Err "connection refused";
     now := fun i => Z.of_nat i |}.

End Scenario.

(** ** What the claims are stated with *)

(** An instance counts as done when [processState] is "running" and its
    process list is not empty. *)
Definition is_done (v : VMInfo) : Prop :=
  ProcessState v = "running" /\ Processes v <> [].

#[global] Instance is_done_dec v : Decision (is_done v).
Proof. unfold is_done. apply _. Defined.

Definition count_done (instances : list VMInfo) : Z :=
  len (filter is_done instances).

(** The lookup of [name] started in environment [e] succeeds at its
    [k]-th retry, with handle [dep], after [k] failed attempts. *)
Definition resolves_at (dir : Director.t) (name : string) (e : Env)
    (k : nat) (dep : Deployment) : Prop :=
  (forall j, (j < k)%nat ->
     is_ok (find_deployment dir name (n_find e + j)) = false) /\
  find_deployment dir name (n_find e + k) = Ok dep.

(** Between environments [e] and [e'] no director operation was issued:
    the log and the three call counters are the same (the clock may have
    been read). *)
Definition no_director_call (e e' : Env) : Prop :=
  n_find e' = n_find e /\ n_vminfos e' = n_vminfos e /\
  n_releases e' = n_releases e /\ calls e' = calls e.

(** What the instance list request of a tick can come back with when
    there is nothing to count: a failure, or no instance. *)
Definition unavailable (r : result (list VMInfo)) : Prop :=
  is_ok r = false \/ r = Ok [].

(** A tick observes convergence: the list is there, not empty, and
    done >= total. *)
Definition observes_convergence (r : result (list VMInfo)) : Prop :=
  exists l, r = Ok l /\ l <> [] /\ count_done l >= len l.

(** The two shapes of snapshot the stream carries. *)
Definition release_snapshot (rels : list Release) (elapsed : Z) : VMProgress :=
  {| State := ""; Releases := len rels; Total := 0; Done := 0;
     Duration := elapsed |}.

Definition instance_snapshot (l : list VMInfo) (elapsed : Z) : VMProgress :=
  {| State := ""; Releases := 0; Total := len l; Done := count_done l;
     Duration := elapsed |}.

Definition with_total (g : Goroutine) (total : Z) : Goroutine :=
  {| g_start := g_start g; g_dep := g_dep g; g_total := total |}.

(** One iteration of the goroutine's loop as a relation: from the captured
    variables [g] in environment [e], the channel operations performed,
    the captured variables afterwards and how the iteration ends. *)
Inductive tick_rel (dir : Director.t) (g : Goroutine) (e : Env)
  : list ChanOp -> Goroutine -> Flow -> Prop :=
| tick_progress l :
    vm_infos dir (g_dep g) (n_vminfos e) = Ok l -> l <> [] ->
    count_done l < len l ->
    tick_rel dir g e
      [Send (instance_snapshot l (Sub (now dir (n_now e)) (g_start g)))]
      (with_total g (len l)) Continue
| tick_converged l :
    vm_infos dir (g_dep g) (n_vminfos e) = Ok l -> l <> [] ->
    count_done l >= len l ->
    tick_rel dir g e
      [Send (instance_snapshot l (Sub (now dir (n_now e)) (g_start g)));
       Close]
      (with_total g (len l)) Return
| tick_releases rels :
    unavailable (vm_infos dir (g_dep g) (n_vminfos e)) ->
    g_total g = 0 ->
    releases dir (n_releases e) = Ok rels ->
    tick_rel dir g e
      [Send (release_snapshot rels (Sub (now dir (n_now e)) (g_start g)))]
      g Continue
| tick_skipped :
    unavailable (vm_infos dir (g_dep g) (n_vminfos e)) ->
    g_total g <> 0 \/ is_ok (releases dir (n_releases e)) = false ->
    tick_rel dir g e [] g Continue.

(** The director operations a goroutine on handle [dep] may issue. *)
Definition poll_call (dep : Deployment) (c : Call) : Prop :=
  c = OpVMInfos dep \/ c = OpReleases.

(** The reading of C9: the call of [VMProgress] hands back its channel
    without having looked the deployment up itself. *)
Definition returns_unresolved (dir : Director.t) (name : string) (e : Env)
  : Prop :=
  exists fuel ch g e',
    Bosh.VMProgress dir fuel name e = Some ((ch, g), e') /\
    calls e' = calls e.

(** ** Vocabulary for the stream as a whole *)

(** The snapshots among the channel operations, in the order sent. *)
Definition sent (ops : list ChanOp) : list VMProgress :=
  flat_map (fun op => match op with Send p => [p] | Close => [] end) ops.

Definition release_op (op : ChanOp) : Prop :=
  exists rels t, op = Send (release_snapshot rels t).

Definition instance_op (op : ChanOp) : Prop :=
  exists l t, l <> [] /\ op = Send (instance_snapshot l t).

(** Later readings of the clock are not earlier. *)
Definition monotone_clock (dir : Director.t) : Prop :=
  forall i j, (i <= j)%nat -> now dir i <= now dir j.

(** A snapshot with its state tag cleared. *)
Definition untagged (p : VMProgress) : VMProgress :=
  {| State := ""; Releases := Releases p; Total := Total p; Done := Done p;
     Duration := Duration p |}.

(** ** bosh.go: connecting to the director

    [New] reads two files under the state directory and hands their
    trimmed contents to the director factory.  File system, path joining,
    trimming, the factory and [errors.SafeWrap] are collaborators from
    outside the sources at hand; they are parameters.  [New] is modelled
    with the list of the reads and factory calls it makes, in order. *)

Module Connect.

(** The fields of [config.Config] that [New] reads. *)
Record Config := {
  StateBosh : string;
  BoshDirectorIP : string
}.

(** [boshdir.FactoryConfig], the fields [New] sets. *)
Record FactoryConfig := {
  Host : string;
  Port : Z;
  CACert : string;
  Client : string;
  ClientSecret : string
}.

(** [type Bosh struct { dir boshdir.Director }] *)
Record Bosh := { dir : Director.t }.

Inductive Effect :=
| DidReadFile (path : string)
| DidNewDirector (fc : FactoryConfig).

Section WithHost.

(** [filepath.Join], [strings.TrimSpace], [ioutil.ReadFile],
    [boshdir.NewFactory(..).New(.., .., ..)], [errors.SafeWrap] *)
Variable Join : string -> string -> string.
Variable TrimSpace : string -> string.
Variable ReadFile : string -> result string.
Variable Factory_New : FactoryConfig -> result Director.t.
Variable SafeWrap : error -> string -> error.

Definition NewWithDirector (d : Director.t) : Bosh := {| dir := d |}.

Definition New (cfg : Config) : result Bosh * list Effect :=
  let secretPath := Join (StateBosh cfg) "secret" in
  match ReadFile secretPath with
  | Err err => (Err err, [DidReadFile secretPath])
  | Ok content =>
      let secret := TrimSpace content in
      let caPath := Join (StateBosh cfg) "ca.crt" in
      match ReadFile caPath with
      | Err err => (Err err, [DidReadFile secretPath; DidReadFile caPath])
      | Ok content' =>
          let caCert := TrimSpace content' in
          let fc := {| Host := BoshDirectorIP cfg; Port := 25555;
                       CACert := caCert; Client := "admin";
                       ClientSecret := secret |} in
          let done := [DidReadFile secretPath; DidReadFile caPath;
                       DidNewDirector fc] in
          match Factory_New fc with
          | Err err =>
              (Err (SafeWrap err "failed to connect to bosh director"), done)
          | Ok d => (Ok (NewWithDirector d), done)
          end
      end
  end.

End WithHost.
End Connect.

(** ** analyticsd/command: the response handlers

    A handler holds its two clients as fields.  The Cloud Controller
    client answers a [Fetch] by decoding the response at a path into the
    struct it is given; the model keeps what the two structs of
    [ServiceCreate.HandleResponse] read from it.  The analytics client
    accepts or refuses an event.  A handler is modelled with the list of
    the fetches and enqueues it makes, in order. *)

Module Analytics.

(** [analytics.Track] with [analytics.Properties] *)
Record Track := {
  UserId : string;
  Event : string;
  Timestamp : Time;
  Properties : gmap string string
}.

(** The entity of a Cloud Controller response: its [service_url] and its
    [label], empty where the response has none. *)
Record Entity := {
  ServiceURL : string;
  Label : string
}.

Inductive Effect :=
| DidFetch (path : string)
| DidEnqueue (t : Track).

(** The events among the effects, in order. *)
Definition enqueued (effects : list Effect) : list Track :=
  flat_map (fun x => match x with DidEnqueue t => [t] | DidFetch _ => [] end)
           effects.

(** The paths fetched, in order. *)
Definition fetched (effects : list Effect) : list string :=
  flat_map (fun x => match x with DidFetch p => [p] | DidEnqueue _ => [] end)
           effects.

End Analytics.
Import Analytics.

Module ServiceCreate.

(** [type ServiceCreate struct]; [CCClient i path] is what the [i]-th
    [Fetch] of an invocation answers for [path], [AnalyticsClient t] what
    [Enqueue] answers ([None] is a nil error). *)
Record t := {
  CCClient : nat -> string -> result Entity;
  AnalyticsClient : Track -> option error;
  TimeStamp : Time;
  UUID : string;
  Version : string;
  OSVersion : string
}.

Section Handler.

(** [runtime.GOOS]; what [json.Unmarshal(body, &metadata)] leaves in
    [metadata.Request.ServicePlanGuid] (its error is dropped); and
    [serviceIsWhiteListed], declared elsewhere in the package. *)
Variable GOOS : string.
Variable ServicePlanGuid : string -> string.
Variable serviceIsWhiteListed : string -> bool.

Definition HandleResponse (c : t) (body : string)
  : option error * list Effect :=
  let path := "/v2/service_plans/" +:+ ServicePlanGuid body in
  match CCClient c 0 path with
  | Err err =>
      (Some ("failed to make request to: " +:+ path +:+ ": " +:+ err),
       [DidFetch path])
  | Ok urlResp =>
      let path' := ServiceURL urlResp in
      match CCClient c 1 path' with
      | Err err =>
          (Some ("failed to make request to: " +:+ path' +:+ ": " +:+ err),
           [DidFetch path; DidFetch path'])
      | Ok labelResp =>
          if negb (serviceIsWhiteListed (Label labelResp))
          then (None, [DidFetch path; DidFetch path'])
          else
            let properties : gmap string string :=
              <["service" := Label labelResp]>
              (<["os" := GOOS]>
              (<["plugin_version" := Version c]>
              (<["os_version" := OSVersion c]> ∅))) in
            let track := {| UserId := UUID c; Event := "created service";
                            Timestamp := TimeStamp c;
                            Properties := properties |} in
            let effects := [DidFetch path; DidFetch path';
                            DidEnqueue track] in
            match AnalyticsClient c track with
            | Some err =>
                (Some ("failed to send analytics: " +:+ err), effects)
            | None => (None, effects)
            end
      end
  end.

End Handler.
End ServiceCreate.

Module OrgCreate.

(** [type OrgCreate struct] *)
Record t := {
  CCClient : nat -> string -> result Entity;
  AnalyticsClient : Track -> option error;
  TimeStamp : Time;
  UUID : string;
  Version : string;
  OSVersion : string
}.

Section Handler.

Variable GOOS : string.

Definition HandleResponse (c : t) (body : string)
  : option error * list Effect :=
  let properties : gmap string string :=
    <["os" := GOOS]>
    (<["plugin_version" := Version c]>
    (<["os_version" := OSVersion c]> ∅)) in
  let track := {| UserId := UUID c; Event := "org created";
                  Timestamp := TimeStamp c; Properties := properties |} in
  match AnalyticsClient c track with
  | Some err => (Some ("failed to send analytics: " +:+ err),
                 [DidEnqueue track])
  | None => (None, [DidEnqueue track])
  end.

End Handler.
End OrgCreate.

(** ** hypervisor/hyperv_test.go: naming the test VM *)

Module HyperVTest.

(** [var letterRunes = []rune("abc...XYZ")]; every rune is ASCII, so
    [string(b)] has one byte per rune. *)
Definition letterRunes : list Ascii.ascii :=
  String.list_ascii_of_string
    "abcdefghijklmnopqrstuvwxyzABCDEFGHIJKLMNOPQRSTUVWXYZ".

(** [s[k]]: an index out of range panics. *)
Definition index {A} (s : list A) (k : Z) : option A :=
  if (k <? 0) || (len s <=? k) then None else s !! Z.to_nat k.

(** [b := make([]rune, 10); for i := range b { b[i] = letterRunes[...] }],
    where [Intn i n] is what the [i]-th call [rand.Intn(n)] returns. *)
Definition fill (Intn : nat -> Z -> Z) (size : nat) : option (list Ascii.ascii) :=
  mapM (fun i => index letterRunes (Intn i (len letterRunes))) (seq 0 size).

Definition randomVMName (Intn : nat -> Z -> Z) : option string :=
  match fill Intn 10 with
  | Some b => Some ("some-vm" +:+ String.string_of_list_ascii b)
  | None => None
  end.

(** [rand.Intn(n)] "returns a non-negative pseudo-random number in the
    half-open interval [0,n)". *)
Definition Intn_in_range (Intn : nat -> Z -> Z) : Prop :=
  forall i n, 0 < n -> 0 <= Intn i n < n.

Definition is_letter (c : Ascii.ascii) : Prop :=
  let k := Ascii.nat_of_ascii c in
  (65 <= k <= 90)%nat \/ (97 <= k <= 122)%nat.

End HyperVTest.

(** ** Proof steps that recur *)

(** Run the primitive calls of a computation applied to an environment. *)
Ltac run_call :=
  unfold Bosh.deployingSnapshot;
  unfold bind, ret, Bosh.dep_VMInfos, Bosh.dir_Releases, Bosh.Now; simpl.

(** Close the bookkeeping goals of an iteration: counters, handle, log. *)
Ltac polled :=
  split; [reflexivity|]; split; [reflexivity|];
  eexists; split; [rewrite <- ?app_assoc; reflexivity|];
  simpl;
  repeat match goal with
         | |- Forall _ (_ :: _) => constructor; [unfold poll_call; auto|]
         | |- Forall _ [] => constructor
         end.

(** ** The counting loop *)

Lemma converged_is_done v : Bosh.converged v = true <-> is_done v.
Proof.
  unfold Bosh.converged, is_done, len.
  rewrite andb_true_iff, String.eqb_eq, Z.ltb_lt.
  destruct (Processes v); simpl; split; intros [? ?]; split;
    try done; lia.
Qed.

Lemma countDone_from (l : list VMInfo) (a : Z) :
  fold_left (fun numDone v => if Bosh.converged v then numDone + 1 else numDone)
            l a = a + count_done l.
Proof.
  revert a. induction l as [|v l IH]; intros a; unfold count_done, len.
  - simpl. lia.
  - simpl fold_left. rewrite IH. rewrite filter_cons.
    destruct (Bosh.converged v) eqn:Hv.
    + apply converged_is_done in Hv. rewrite decide_True by done.
      unfold count_done, len. simpl length. lia.
    + rewrite decide_False.
      * unfold count_done, len. lia.
      * intros Hd. apply converged_is_done in Hd. congruence.
Qed.

Lemma countDone_spec (l : list VMInfo) : Bosh.countDone l = count_done l.
Proof. unfold Bosh.countDone. rewrite countDone_from. lia. Qed.

Lemma count_done_bounds (l : list VMInfo) : 0 <= count_done l <= len l.
Proof.
  unfold count_done, len. split; [lia|].
  apply inj_le. apply length_filter.
Qed.

(** ** The handle resolution *)

Section Resolution.

Variable dir : Director.t.

(** With enough fuel the busy-poll returns the first handle the director
    gives out, having made one lookup per attempt and nothing else. *)
Lemma findLoop_resolves k : forall fuel name e dep,
  resolves_at dir name e k dep -> (k < fuel)%nat ->
  exists e', Bosh.findLoop dir fuel name e = Some (dep, e') /\
    n_find e' = (n_find e + S k)%nat /\
    n_vminfos e' = n_vminfos e /\ n_releases e' = n_releases e /\
    n_now e' = n_now e /\
    calls e' = calls e ++ replicate (S k) (OpFindDeployment name).
Proof.
  induction k as [|k IH]; intros fuel name e dep [Hfail Hok] Hfuel;
    (destruct fuel as [|fuel]; [lia|]);
    simpl; unfold bind, Bosh.dir_FindDeployment.
  - rewrite Nat.add_0_r in Hok. rewrite Hok.
    eexists; split; [reflexivity|]. simpl. repeat split; lia.
  - pose proof (Hfail 0%nat ltac:(lia)) as H0.
    rewrite Nat.add_0_r in H0.
    destruct (find_deployment dir name (n_find e)) as [d|err] eqn:Hd;
      [discriminate|].
    set (e1 := {| n_find := S (n_find e); n_vminfos := n_vminfos e;
                  n_releases := n_releases e; n_now := n_now e;
                  calls := calls e ++ [OpFindDeployment name] |}).
    destruct (IH fuel name e1 dep) as (e' & Hrun & Hf & Hv & Hr & Hn & Hc).
    + split.
      * intros j Hj. specialize (Hfail (S j) ltac:(lia)).
        simpl. rewrite <- Nat.add_succ_r. exact Hfail.
      * simpl. rewrite <- Nat.add_succ_r. exact Hok.
    + lia.
    + exists e'. split; [exact Hrun|]. simpl in *.
      repeat split; try congruence; try lia.
      rewrite Hc, <- app_assoc. reflexivity.
Qed.

(** Whenever the busy-poll returns, its last lookup succeeded and every
    earlier one failed. *)
Lemma findLoop_inv fuel : forall name e dep e',
  Bosh.findLoop dir fuel name e = Some (dep, e') ->
  exists k, (k < fuel)%nat /\ resolves_at dir name e k dep /\
    calls e' = calls e ++ replicate (S k) (OpFindDeployment name).
Proof.
  induction fuel as [|fuel IH]; intros name e dep e' Hrun; [discriminate|].
  simpl in Hrun. unfold bind, Bosh.dir_FindDeployment in Hrun.
  destruct (find_deployment dir name (n_find e)) as [d|err] eqn:Hd.
  - inversion Hrun; subst. exists 0%nat. split; [lia|]. split.
    + split; [intros j Hj; lia|]. rewrite Nat.add_0_r. exact Hd.
    + reflexivity.
  - apply IH in Hrun. destruct Hrun as (k & Hk & [Hfail Hok] & Hc).
    simpl in *. exists (S k). split; [lia|]. split.
    + split.
      * intros [|j] Hj.
        -- rewrite Nat.add_0_r, Hd. reflexivity.
        -- rewrite Nat.add_succ_r. apply Hfail. lia.
      * rewrite Nat.add_succ_r. exact Hok.
    + rewrite Hc, <- app_assoc. reflexivity.
Qed.

(** On a director that never finds the deployment the busy-poll does not
    return, whatever the fuel. *)
Lemma findLoop_spins fuel : forall name e,
  (forall i, is_ok (find_deployment dir name i) = false) ->
  Bosh.findLoop dir fuel name e = None.
Proof.
  induction fuel as [|fuel IH]; intros name e Hnever; [reflexivity|].
  simpl. unfold bind, Bosh.dir_FindDeployment.
  specialize (Hnever (n_find e)) as Hd.
  destruct (find_deployment dir name (n_find e)); [discriminate|].
  apply IH. exact Hnever.
Qed.

End Resolution.

(** ** The scenarios, run *)

(** A whole session on [Scenario.rollout]: the call returns after three
    lookups; the goroutine reports two releases, then 2 of 3 instances and
    goes on, then 2 of 2, and closes the channel. *)
Example rollout_session :
  match Bosh.VMProgress Scenario.rollout 3 "cf" env0 with
  | Some ((_, g), e) => fst <$> Bosh.loop Scenario.rollout 10 g e
  | None => None
  end =
  Some ([Send (release_snapshot ["cf"; "bosh-dns"] 1000);
         Send {| State := ""; Releases := 0; Total := 3; Done := 2;
                 Duration := 2000 |};
         Send {| State := ""; Releases := 0; Total := 2; Done := 2;
                 Duration := 3000 |};
         Close], Return).
Proof. reflexivity. Qed.

(** Once instances have been seen, a tick without them sends nothing. *)
Example tick_after_instances_is_silent :
  fst <$> Bosh.tick Scenario.blank
            {| g_start := 0; g_dep := Scenario.cf; g_total := 3 |} env0 =
  Some ([], {| g_start := 0; g_dep := Scenario.cf; g_total := 3 |}, Continue).
Proof. reflexivity. Qed.

(** [Sub] saturates. *)
Example Sub_saturates : Sub (2 ^ 63) (- 5) = maxDuration.
Proof. reflexivity. Qed.

(** ** The one-shot query *)

Section OneShot.

Variable dir : Director.t.

(** Everything up to the test on the instance list: the handle is
    resolved and the instance list requested once. *)
Lemma GetVMProgress_prefix fuel start name e k dep :
  resolves_at dir name e k dep -> (k < fuel)%nat ->
  exists e1, n_now e1 = n_now e /\ n_releases e1 = n_releases e /\
    Bosh.GetVMProgress dir fuel start name false e =
    (let (vmInfos, err) := VMInfos_returns dir dep (n_vminfos e) in
     if notnil err || (len vmInfos =? 0) then
       bind (Bosh.dir_Releases dir) (fun rr =>
         match rr with
         | Ok rels =>
             bind (Bosh.Now dir) (fun t =>
               ret {| State := UploadingReleases;
                      Releases := len rels; Total := 0; Done := 0;
                      Duration := Sub t start |})
         | Err _ => Bosh.deployingSnapshot dir start vmInfos
         end)
     else Bosh.deployingSnapshot dir start vmInfos) e1.
Proof.
  intros Hres Hfuel.
  destruct (findLoop_resolves dir k fuel name e dep Hres Hfuel)
    as (e0 & Hrun & Hf & Hv & Hr & Hn & Hc).
  eexists. split; [|split]; cycle 2.
  - unfold Bosh.GetVMProgress. unfold bind at 1. rewrite Hrun.
    unfold bind at 1. unfold Bosh.dep_VMInfos at 1. rewrite Hv.
    reflexivity.
  - simpl. exact Hn.
  - simpl. exact Hr.
Qed.

End OneShot.

(** C1: a call of GetVMProgress with isErrand false, on a deployment whose
    handle resolves and whose instance list request succeeds with a
    non-empty list, returns a "deploying" snapshot whose total is the number
    of instances and whose done is the number of instances with processState
    "running" and a non-empty process list. *)
Theorem GetVMProgress_counts_instances
    (dir : Director.t) (fuel : nat) (start : Time) (name : string)
    (e : Env) (k : nat) (dep : Deployment) (instances : list VMInfo) :
  resolves_at dir name e k dep -> (k < fuel)%nat ->
  vm_infos dir dep (n_vminfos e) = Ok instances ->
  instances <> [] ->
  exists e',
    Bosh.GetVMProgress dir fuel start name false e =
    Some ({| State := "deploying"; Releases := 0;
             Total := len instances; Done := count_done instances;
             Duration := Sub (now dir (n_now e)) start |}, e').
Proof.
  intros Hres Hfuel Hinfos Hne.
  destruct (GetVMProgress_prefix dir fuel start name e k dep Hres Hfuel)
    as (e1 & Hn & _ & ->).
  unfold VMInfos_returns. rewrite Hinfos. cbn [notnil orb].
  assert ((len instances =? 0) = false) as ->.
  { apply Z.eqb_neq. unfold len. destruct instances; [done|simpl; lia]. }
  run_call. rewrite countDone_spec, Hn. eexists. reflexivity.
Qed.

Lemma GetVMProgress_counts_instances_witness :
  exists e',
    Bosh.GetVMProgress Scenario.rollout 3 0 "cf" false
      {| n_find := 0; n_vminfos := 2; n_releases := 1; n_now := 2;
         calls := [] |} =
    Some ({| State := "deploying"; Releases := 0; Total := 3; Done := 2;
             Duration := 2000 |}, e').
Proof.
  apply (GetVMProgress_counts_instances Scenario.rollout 3 0 "cf"
           {| n_find := 0; n_vminfos := 2; n_releases := 1; n_now := 2;
              calls := [] |} 2 Scenario.cf
           [Scenario.vm "running" ["gorouter"]; Scenario.vm "starting" [];
            Scenario.vm "running" ["uaa"; "consul"]]).
  - split; [|reflexivity].
    intros [|[|j]] Hj; [reflexivity|reflexivity|lia].
  - lia.
  - reflexivity.
  - discriminate.
Defined.

(** When the instance list is unavailable or empty and the release catalog
    answers, the call reports the number of releases and stops there. *)
Lemma GetVMProgress_uploading
    (dir : Director.t) (fuel : nat) (start : Time) (name : string)
    (e : Env) (k : nat) (dep : Deployment) (rels : list Release) :
  resolves_at dir name e k dep -> (k < fuel)%nat ->
  is_ok (vm_infos dir dep (n_vminfos e)) = false \/
    vm_infos dir dep (n_vminfos e) = Ok [] ->
  releases dir (n_releases e) = Ok rels ->
  exists e',
    Bosh.GetVMProgress dir fuel start name false e =
    Some ({| State := "uploading-releases"; Releases := len rels;
             Total := 0; Done := 0;
             Duration := Sub (now dir (n_now e)) start |}, e').
Proof.
  intros Hres Hfuel Hinfos Hrels.
  destruct (GetVMProgress_prefix dir fuel start name e k dep Hres Hfuel)
    as (e1 & Hn & Hr & ->).
  assert (Hbranch : exists vmInfos err,
    VMInfos_returns dir dep (n_vminfos e) = (vmInfos, err) /\
    notnil err || (len vmInfos =? 0) = true).
  { unfold VMInfos_returns. destruct Hinfos as [Hfail | ->].
    - destruct (vm_infos dir dep (n_vminfos e)); [discriminate|].
      do 2 eexists. split; reflexivity.
    - do 2 eexists. split; reflexivity. }
  destruct Hbranch as (vmInfos & err & -> & ->).
  run_call. rewrite Hr, Hrels, Hn. eexists. reflexivity.
Qed.

(** C3, as the code has it: for a deployment whose instance list is empty
    and whose release catalog is fetchable and holds no release,
    GetVMProgress (isErrand false) returns an "uploading-releases" snapshot
    with releases, total and done all 0. *)
Theorem GetVMProgress_no_instances_no_releases
    (dir : Director.t) (fuel : nat) (start : Time) (name : string)
    (e : Env) (k : nat) (dep : Deployment) :
  resolves_at dir name e k dep -> (k < fuel)%nat ->
  vm_infos dir dep (n_vminfos e) = Ok [] ->
  releases dir (n_releases e) = Ok [] ->
  exists e',
    Bosh.GetVMProgress dir fuel start name false e =
    Some ({| State := "uploading-releases"; Releases := 0;
             Total := 0; Done := 0;
             Duration := Sub (now dir (n_now e)) start |}, e').
Proof.
  intros Hres Hfuel Hinfos Hrels.
  apply (GetVMProgress_uploading dir fuel start name e k dep []); auto.
Qed.

Lemma GetVMProgress_no_instances_no_releases_witness :
  exists e',
    Bosh.GetVMProgress Scenario.blank 1 0 "cf" false env0 =
    Some ({| State := "uploading-releases"; Releases := 0;
             Total := 0; Done := 0; Duration := 0 |}, e').
Proof.
  apply (GetVMProgress_no_instances_no_releases
           Scenario.blank 1 0 "cf" env0 0 Scenario.cf).
  - split; [intros j Hj; lia | reflexivity].
  - lia.
  - reflexivity.
  - reflexivity.
Defined.

(** The snapshot C3 promises is not the one returned: on a director with
    no release and no instance the state tag is "uploading-releases". *)
Lemma GetVMProgress_no_instances_no_releases_not_deploying :
  resolves_at Scenario.blank "cf" env0 0 Scenario.cf /\
  vm_infos Scenario.blank Scenario.cf (n_vminfos env0) = Ok [] /\
  releases Scenario.blank (n_releases env0) = Ok [] /\
  ~ exists p e',
      Bosh.GetVMProgress Scenario.blank 1 0 "cf" false env0 = Some (p, e') /\
      State p = "deploying" /\ Total p = 0 /\ Done p = 0.
Proof.
  split; [split; [intros j Hj; lia | reflexivity]|].
  split; [reflexivity|]. split; [reflexivity|].
  intros (p & e' & Hrun & Hstate & _).
  vm_compute in Hrun. inversion Hrun; subst p. discriminate Hstate.
Qed.

(** C4, as the code has it: when the instance list request returns an
    empty list, or fails and returns no instances with its error, and the
    release-catalog query fails too, GetVMProgress (isErrand false)
    returns a "deploying" snapshot with total 0 and done 0. *)
Theorem GetVMProgress_nothing_available
    (dir : Director.t) (fuel : nat) (start : Time) (name : string)
    (e : Env) (k : nat) (dep : Deployment) :
  resolves_at dir name e k dep -> (k < fuel)%nat ->
  vm_infos dir dep (n_vminfos e) = Ok [] \/
    (is_ok (vm_infos dir dep (n_vminfos e)) = false /\
     vm_infos_on_error dir dep (n_vminfos e) = []) ->
  is_ok (releases dir (n_releases e)) = false ->
  exists e',
    Bosh.GetVMProgress dir fuel start name false e =
    Some ({| State := "deploying"; Releases := 0; Total := 0; Done := 0;
             Duration := Sub (now dir (n_now e)) start |}, e').
Proof.
  intros Hres Hfuel Hinfos Hrels.
  destruct (GetVMProgress_prefix dir fuel start name e k dep Hres Hfuel)
    as (e1 & Hn & Hr & ->).
  destruct (releases dir (n_releases e)) as [rels|err] eqn:Hcat;
    [discriminate|].
  assert (Hbranch : exists err',
    VMInfos_returns dir dep (n_vminfos e) = ([], err') /\
    notnil err' || (len ([] : list VMInfo) =? 0) = true).
  { unfold VMInfos_returns. destruct Hinfos as [-> | [Hfail Hnone]].
    - eexists. split; reflexivity.
    - destruct (vm_infos dir dep (n_vminfos e)); [discriminate|].
      rewrite Hnone. eexists. split; reflexivity. }
  destruct Hbranch as (err' & -> & ->).
  run_call. rewrite Hr, Hcat, Hn. eexists. reflexivity.
Qed.

Lemma GetVMProgress_nothing_available_witness :
  exists e',
    Bosh.GetVMProgress Scenario.failing 1 0 "cf" false env0 =
    Some ({| State := "deploying"; Releases := 0; Total := 0; Done := 0;
             Duration := 0 |}, e').
Proof.
  apply (GetVMProgress_nothing_available
           Scenario.failing 1 0 "cf" env0 0 Scenario.cf).
  - split; [intros j Hj; lia | reflexivity].
  - lia.
  - right. split; reflexivity.
  - reflexivity.
Defined.

(** The snapshot C4 promises is not the one returned when the failed
    instance list request hands back instances with its error: the
    fall-through counts them. *)
Lemma GetVMProgress_counts_list_returned_with_error :
  resolves_at Scenario.stale "cf" env0 0 Scenario.cf /\
  is_ok (vm_infos Scenario.stale Scenario.cf (n_vminfos env0)) = false /\
  is_ok (releases Scenario.stale (n_releases env0)) = false /\
  (exists e',
     Bosh.GetVMProgress Scenario.stale 1 0 "cf" false env0 =
     Some ({| State := "deploying"; Releases := 0; Total := 2; Done := 1;
              Duration := 0 |}, e')) /\
  ~ exists p e',
      Bosh.GetVMProgress Scenario.stale 1 0 "cf" false env0 = Some (p, e') /\
      State p = "deploying" /\ Total p = 0 /\ Done p = 0.
Proof.
  split; [split; [intros j Hj; lia | reflexivity]|].
  split; [reflexivity|]. split; [reflexivity|]. split.
  - eexists. reflexivity.
  - intros (p & e' & Hrun & _ & Htotal & _).
    vm_compute in Hrun. inversion Hrun; subst p. discriminate Htotal.
Qed.

(** C7: with isErrand true GetVMProgress returns a "running-errand"
    snapshot that carries the elapsed duration and nothing else (releases,
    total and done are 0), and issues no director operation: no
    FindDeployment, no instance list, no release query.  It does so even
    where the deployment can never be found. *)
Theorem GetVMProgress_errand
    (dir : Director.t) (fuel : nat) (start : Time) (name : string)
    (e : Env) :
  exists e',
    Bosh.GetVMProgress dir fuel start name true e =
    Some ({| State := "running-errand"; Releases := 0; Total := 0;
             Done := 0; Duration := Sub (now dir (n_now e)) start |}, e') /\
    no_director_call e e'.
Proof.
  unfold Bosh.GetVMProgress. run_call.
  eexists. split; [reflexivity|]. unfold no_director_call. simpl. auto.
Qed.

(** ** The stream *)

Section Stream.

Variable dir : Director.t.

(** An iteration always completes, in one of the four ways of
    [tick_rel]; it requests the instance list once and issues nothing but
    instance-list and release queries. *)
Lemma tick_sound (g : Goroutine) (e : Env) :
  exists ops g' fl e',
    Bosh.tick dir g e = Some ((ops, g', fl), e') /\
    tick_rel dir g e ops g' fl /\
    n_vminfos e' = S (n_vminfos e) /\
    g_dep g' = g_dep g /\
    exists cs, calls e' = calls e ++ cs /\ Forall (poll_call (g_dep g)) cs.
Proof.
  unfold Bosh.tick. unfold bind at 1. unfold Bosh.dep_VMInfos at 1.
  unfold VMInfos_returns.
  destruct (vm_infos dir (g_dep g) (n_vminfos e)) as [[|v l]|err] eqn:Hr.
  1,3: assert (Hun : unavailable (vm_infos dir (g_dep g) (n_vminfos e)))
         by (rewrite Hr; first [by right | by left]);
       simpl; destruct (g_total g =? 0) eqn:Ht;
       [ apply Z.eqb_eq in Ht; run_call;
         destruct (releases dir (n_releases e)) as [rels|err'] eqn:Hc
       | apply Z.eqb_neq in Ht; run_call ];
       do 4 eexists; (split; [reflexivity|]); simpl;
       (split;
        [ first [ by apply (tick_releases dir g e rels)
                | apply tick_skipped; [done | right; by rewrite Hc]
                | apply tick_skipped; [done | by left] ]
        | polled ]).
  set (vmInfos := v :: l) in *.
  assert (Hne : vmInfos <> []) by done.
  assert (Hlen : (len vmInfos =? 0) = false).
  { apply Z.eqb_neq. unfold len, vmInfos. simpl length. lia. }
  cbn [notnil orb]. rewrite Hlen. run_call.
  rewrite countDone_spec.
  destruct (count_done vmInfos >=? len vmInfos) eqn:Hge;
    do 4 eexists; (split; [reflexivity|]); simpl.
  - split; [|polled].
    apply (tick_converged dir g e vmInfos); auto.
    apply Z.geb_ge in Hge. lia.
  - split; [|polled].
    apply (tick_progress dir g e vmInfos); auto.
    rewrite Z.geb_leb in Hge. apply Z.leb_gt in Hge. lia.
Qed.

(** An iteration that goes on has not observed convergence. *)
Lemma tick_continue_not_converged g e ops g' :
  tick_rel dir g e ops g' Continue ->
  ~ observes_convergence (vm_infos dir (g_dep g) (n_vminfos e)) /\
  ~ In Close ops.
Proof.
  intros Hrel. inversion Hrel; subst; split;
    try (simpl; intros [|[]]; discriminate); try (simpl; tauto);
    intros (l' & Hl & Hne' & Hge);
    match goal with
    | H : unavailable _ |- _ =>
        destruct H as [Hf|Hf]; rewrite Hl in Hf;
        [discriminate | inversion Hf; subst; done]
    | H : vm_infos _ _ _ = Ok ?l, H' : count_done ?l < _ |- _ =>
        rewrite H in Hl; inversion Hl; subst; lia
    end.
Qed.

(** How [loop] unfolds over a first iteration that returns. *)
Lemma loop_return n g e ops g' e' :
  Bosh.tick dir g e = Some ((ops, g', Return), e') ->
  Bosh.loop dir (S n) g e = Some ((ops, Return), e').
Proof. intros Ht. simpl. unfold bind. rewrite Ht. reflexivity. Qed.

(** How [loop] unfolds over a first iteration that goes on. *)
Lemma loop_continue n g e ops g' e' ops2 fl2 e2 :
  Bosh.tick dir g e = Some ((ops, g', Continue), e') ->
  Bosh.loop dir n g' e' = Some ((ops2, fl2), e2) ->
  Bosh.loop dir (S n) g e = Some ((ops ++ ops2, fl2), e2).
Proof.
  intros Ht Hl. simpl. unfold bind at 1. rewrite Ht.
  unfold bind. rewrite Hl. reflexivity.
Qed.

(** The loop never gets stuck: every observation window has a result. *)
Lemma loop_total n : forall g e,
  exists ops fl e', Bosh.loop dir n g e = Some ((ops, fl), e').
Proof.
  induction n as [|n IH]; intros g e.
  - do 3 eexists. reflexivity.
  - destruct (tick_sound g e) as (ops & g1 & fl & e1 & Ht & _).
    destruct fl.
    + destruct (IH g1 e1) as (ops2 & fl2 & e2 & Hl).
      do 3 eexists. eapply loop_continue; eauto.
    + do 3 eexists. eapply loop_return; eauto.
Qed.

(** A window of [S n] iterations is a first iteration and, unless that
    one returned, a window of [n] iterations after it. *)
Lemma loop_step n g e ops fl e' :
  Bosh.loop dir (S n) g e = Some ((ops, fl), e') ->
  exists ops1 g1 fl1 e1,
    Bosh.tick dir g e = Some ((ops1, g1, fl1), e1) /\
    tick_rel dir g e ops1 g1 fl1 /\
    n_vminfos e1 = S (n_vminfos e) /\ g_dep g1 = g_dep g /\
    (exists cs, calls e1 = calls e ++ cs /\
                Forall (poll_call (g_dep g)) cs) /\
    match fl1 with
    | Return => ops = ops1 /\ fl = Return /\ e' = e1
    | Continue =>
        exists ops2, Bosh.loop dir n g1 e1 = Some ((ops2, fl), e') /\
                     ops = ops1 ++ ops2
    end.
Proof.
  intros Hl.
  destruct (tick_sound g e) as (ops1 & g1 & fl1 & e1 & Ht & Hrel & Hv & Hd & Hc).
  exists ops1, g1, fl1, e1. do 5 (split; [assumption|]).
  destruct fl1.
  - destruct (loop_total n g1 e1) as (ops2 & fl2 & e2 & Hl2).
    rewrite (loop_continue n g e ops1 g1 e1 ops2 fl2 e2 Ht Hl2) in Hl.
    inversion Hl; subst. eauto.
  - rewrite (loop_return n g e ops1 g1 e1 Ht) in Hl.
    inversion Hl; subst. auto.
Qed.

(** Whatever is sent is a release count or an instance count. *)
Lemma loop_sends n : forall g e ops fl e' p,
  Bosh.loop dir n g e = Some ((ops, fl), e') -> In (Send p) ops ->
  (exists rels t, p = release_snapshot rels t) \/
  (exists l t, l <> [] /\ p = instance_snapshot l t).
Proof.
  induction n as [|n IH]; intros g e ops fl e' p Hl Hin.
  - inversion Hl; subst. destruct Hin.
  - apply loop_step in Hl.
    destruct Hl as (ops1 & g1 & fl1 & e1 & _ & Hrel & _ & _ & _ & Hrest).
    assert (Hfirst : In (Send p) ops1 ->
      (exists rels t, p = release_snapshot rels t) \/
      (exists l t, l <> [] /\ p = instance_snapshot l t)).
    { intros Hp. inversion Hrel; subst; simpl in Hp;
        repeat match goal with
               | H : _ \/ _ |- _ => destruct H
               | H : False |- _ => destruct H
               | H : Send _ = Send _ |- _ => inversion H; clear H; subst
               | H : Close = Send _ |- _ => discriminate H
               end; eauto. }
    destruct fl1.
    + destruct Hrest as (ops2 & Hl2 & ->).
      apply in_app_or in Hin. destruct Hin as [Hin|Hin]; eauto.
    + destruct Hrest as (-> & _ & _). auto.
Qed.

(** The goroutine issues instance-list and release queries only. *)
Lemma loop_calls n : forall g e ops fl e',
  Bosh.loop dir n g e = Some ((ops, fl), e') ->
  exists cs, calls e' = calls e ++ cs /\ Forall (poll_call (g_dep g)) cs.
Proof.
  induction n as [|n IH]; intros g e ops fl e' Hl.
  - inversion Hl; subst. exists []. split; [by rewrite app_nil_r|constructor].
  - apply loop_step in Hl.
    destruct Hl as (ops1 & g1 & fl1 & e1 & _ & _ & _ & Hd & (cs & Hc & Hcs) & Hrest).
    destruct fl1.
    + destruct Hrest as (ops2 & Hl2 & _).
      apply IH in Hl2. destruct Hl2 as (cs2 & Hc2 & Hcs2).
      exists (cs ++ cs2). split.
      * rewrite Hc2, Hc, app_assoc. reflexivity.
      * rewrite Hd in Hcs2. apply Forall_app. auto.
    + destruct Hrest as (_ & _ & ->). eauto.
Qed.

End Stream.

(** C2: on a streaming session the stream is closed and the goroutine
    returns exactly when some tick observes a non-empty instance list with
    done >= total.  Nothing else closes the stream, and the snapshot with
    those counts is sent right before the close, which is the last thing
    the goroutine does to the channel.  (Tick [i] of a goroutine started in
    environment [e] observes the answer to instance-list request
    [n_vminfos e + i].) *)
Theorem stream_closes_exactly_on_convergence
    (dir : Director.t) (n : nat) (g : Goroutine) (e : Env) :
  exists ops fl e',
    Bosh.loop dir n g e = Some ((ops, fl), e') /\
    (fl = Return <->
       exists i, (i < n)%nat /\
         observes_convergence (vm_infos dir (g_dep g) (n_vminfos e + i))) /\
    (In Close ops <-> fl = Return) /\
    (fl = Return ->
       exists i l t before,
         (i < n)%nat /\
         vm_infos dir (g_dep g) (n_vminfos e + i) = Ok l /\
         l <> [] /\ count_done l >= len l /\
         ops = before ++ [Send (instance_snapshot l t); Close] /\
         ~ In Close before).
Proof.
  revert g e. induction n as [|n IH]; intros g e.
  - exists [], Continue, e. split; [reflexivity|].
    split; [|split].
    + split; [discriminate|]. intros (i & Hi & _). lia.
    + split; [intros []|discriminate].
    + discriminate.
  - destruct (loop_total dir (S n) g e) as (ops & fl & e' & Hl).
    exists ops, fl, e'. split; [exact Hl|].
    apply loop_step in Hl.
    destruct Hl as (ops1 & g1 & fl1 & e1 & _ & Hrel & Hv & Hd & _ & Hrest).
    destruct fl1.
    + destruct Hrest as (ops2 & Hl2 & ->).
      destruct (tick_continue_not_converged dir g e ops1 g1 Hrel)
        as [Hnc Hnclose].
      destruct (IH g1 e1) as (ops2' & fl' & e2' & Hl2' & Hret & Hclose & Hlast).
      rewrite Hl2 in Hl2'. inversion Hl2'; subst ops2' fl' e2'. clear Hl2'.
      rewrite Hd, Hv in Hret, Hlast.
      split; [|split].
      * rewrite Hret. split.
        -- intros (i & Hi & Hconv). exists (S i). split; [lia|].
           rewrite Nat.add_succ_r. exact Hconv.
        -- intros ([|i] & Hi & Hconv).
           ++ rewrite Nat.add_0_r in Hconv. contradiction.
           ++ exists i. split; [lia|].
              rewrite Nat.add_succ_r in Hconv. exact Hconv.
      * rewrite <- Hclose. rewrite in_app_iff. tauto.
      * intros Hfl. destruct (Hlast Hfl)
          as (i & l & t & before & Hi & Hr & Hne & Hge & -> & Hnb).
        exists (S i), l, t, (ops1 ++ before).
        split; [lia|]. rewrite Nat.add_succ_r.
        split; [exact Hr|]. split; [exact Hne|]. split; [exact Hge|].
        split; [by rewrite app_assoc|].
        rewrite in_app_iff. tauto.
    + destruct Hrest as (-> & -> & ->).
      inversion Hrel as [ | l Hr Hne Hge | | ]; subst.
      split; [|split].
      * split; [|reflexivity]. intros _. exists 0%nat. split; [lia|].
        rewrite Nat.add_0_r. exists l. auto.
      * split; [reflexivity|]. intros _. simpl. auto.
      * intros _. exists 0%nat, l, (Sub (now dir (n_now e)) (g_start g)), [].
        rewrite Nat.add_0_r. split; [lia|]. repeat split; auto.
Qed.

(** C5: whatever the director answers, nothing but progress snapshots
    enters the stream.  A tick whose instance-list request fails (or finds
    no instance) sends a release-count snapshot or nothing (nothing when
    the release query fails as well), leaves the goroutine's variables as
    they were and goes on to the next tick; the loop after it runs on
    under every later answer, and every value it ever sends is a
    release-count or an instance-count snapshot. *)
Theorem stream_swallows_failures
    (dir : Director.t) (g : Goroutine) (e : Env) :
  unavailable (vm_infos dir (g_dep g) (n_vminfos e)) ->
  exists ops e',
    Bosh.tick dir g e = Some ((ops, g, Continue), e') /\
    (ops = [] \/
     exists rels,
       releases dir (n_releases e) = Ok rels /\
       ops = [Send (release_snapshot rels
                      (Sub (now dir (n_now e)) (g_start g)))]) /\
    (is_ok (releases dir (n_releases e)) = false -> ops = []) /\
    forall n, exists rest fl e'',
      Bosh.loop dir (S n) g e = Some ((ops ++ rest, fl), e'') /\
      forall op, In op (ops ++ rest) ->
        op = Close \/
        exists p, op = Send p /\
          ((exists rels t, p = release_snapshot rels t) \/
           (exists l t, l <> [] /\ p = instance_snapshot l t)).
Proof.
  intros Hun.
  destruct (tick_sound dir g e) as (ops & g1 & fl & e1 & Ht & Hrel & _).
  assert (Hshape : g1 = g /\ fl = Continue /\
    (ops = [] \/
     exists rels,
       releases dir (n_releases e) = Ok rels /\
       ops = [Send (release_snapshot rels
                      (Sub (now dir (n_now e)) (g_start g)))]) /\
    (is_ok (releases dir (n_releases e)) = false -> ops = [])).
  { inversion Hrel as [l Hr Hne _ | l Hr Hne _ | rels _ _ Hc | _ _]; subst.
    1,2: destruct Hun as [Hf|Hf]; rewrite Hr in Hf;
         [discriminate | inversion Hf; subst; done].
    - repeat split; eauto. rewrite Hc. discriminate.
    - repeat split; auto. }
  destruct Hshape as (-> & -> & Hops & Hnone).
  exists ops, e1. split; [exact Ht|]. split; [exact Hops|].
  split; [exact Hnone|].
  intros n. destruct (loop_total dir n g e1) as (rest & fl & e2 & Hl).
  exists rest, fl, e2.
  pose proof (loop_continue dir n g e ops g e1 rest fl e2 Ht Hl) as Hall.
  split; [exact Hall|].
  intros [p|] Hin; [right|by left].
  exists p. split; [reflexivity|].
  eapply loop_sends; eauto.
Qed.

Lemma stream_swallows_failures_witness :
  exists ops e',
    Bosh.tick Scenario.failing
      {| g_start := 0; g_dep := Scenario.cf; g_total := 0 |} env0 =
    Some ((ops, {| g_start := 0; g_dep := Scenario.cf; g_total := 0 |},
           Continue), e') /\
    ops = [].
Proof.
  destruct (stream_swallows_failures Scenario.failing
              {| g_start := 0; g_dep := Scenario.cf; g_total := 0 |} env0)
    as (ops & e' & Ht & _ & Hnone & _).
  - left. reflexivity.
  - exists ops, e'. split; [exact Ht|]. apply Hnone. reflexivity.
Defined.

(** The three shapes of snapshot the one-shot query can return. *)
Lemma GetVMProgress_shapes
    (dir : Director.t) (fuel : nat) (start : Time) (name : string)
    (isErrand : bool) (e : Env) (p : VMProgress) (e' : Env) :
  Bosh.GetVMProgress dir fuel start name isErrand e = Some (p, e') ->
  exists t,
    p = {| State := RunningErrand; Releases := 0; Total := 0; Done := 0;
           Duration := t |} \/
    (exists rels : list Release,
       p = {| State := UploadingReleases; Releases := len rels; Total := 0;
              Done := 0; Duration := t |}) \/
    (exists l : list VMInfo,
       p = {| State := Deploying; Releases := 0; Total := len l;
              Done := count_done l; Duration := t |}).
Proof.
  unfold Bosh.GetVMProgress. destruct isErrand.
  - run_call. intros H. inversion H; subst. eauto.
  - unfold bind at 1.
    destruct (Bosh.findLoop dir fuel name e) as [[dep e0]|]; [|discriminate].
    unfold bind at 1. unfold Bosh.dep_VMInfos at 1.
    unfold VMInfos_returns.
    destruct (vm_infos dir dep (n_vminfos e0)) as [[|v l]|err]; simpl;
      run_call;
      try (destruct (releases dir (n_releases e0)) as [rels|err2]);
      intros H; inversion H; subst; eexists;
      first [ by right; left; eexists
            | right; right; eexists; rewrite countDone_spec; reflexivity
            | right; right; exists []; reflexivity ].
Qed.

(** C6: every snapshot GetVMProgress returns, and every snapshot sent on a
    streaming session, has done <= total. *)
Theorem done_at_most_total (dir : Director.t) :
  (forall fuel start name isErrand e p e',
     Bosh.GetVMProgress dir fuel start name isErrand e = Some (p, e') ->
     Done p <= Total p) /\
  (forall n g e ops fl e' p,
     Bosh.loop dir n g e = Some ((ops, fl), e') -> In (Send p) ops ->
     Done p <= Total p).
Proof.
  split.
  - intros fuel start name isErrand e p e' Hrun.
    apply GetVMProgress_shapes in Hrun.
    destruct Hrun as (t & [-> | [(rels & ->) | (l & ->)]]); simpl;
      try lia. apply count_done_bounds.
  - intros n g e ops fl e' p Hl Hin.
    destruct (loop_sends dir n g e ops fl e' p Hl Hin)
      as [(rels & t & ->) | (l & t & _ & ->)]; simpl; [lia|].
    apply count_done_bounds.
Qed.

Lemma done_at_most_total_witness :
  Done {| State := "uploading-releases"; Releases := 2; Total := 0;
          Done := 0; Duration := 0 |} <=
  Total {| State := "uploading-releases"; Releases := 2; Total := 0;
           Done := 0; Duration := 0 |} /\
  Done (instance_snapshot
          [Scenario.vm "running" ["gorouter"]; Scenario.vm "starting" [];
           Scenario.vm "running" ["uaa"; "consul"]] 2000) <= 3.
Proof.
  destruct (done_at_most_total Scenario.rollout) as [Hone Hstream]. split.
  - apply (Hone 3%nat 0 "cf" false env0 _
             {| n_find := 3; n_vminfos := 1; n_releases := 1; n_now := 1;
                calls := [OpFindDeployment "cf"; OpFindDeployment "cf";
                          OpFindDeployment "cf"; OpVMInfos Scenario.cf;
                          OpReleases] |}).
    reflexivity.
  - apply (Hstream 1%nat
             {| g_start := 0; g_dep := Scenario.cf; g_total := 0 |}
             {| n_find := 3; n_vminfos := 2; n_releases := 2; n_now := 2;
                calls := [] |}
             [Send (instance_snapshot
                [Scenario.vm "running" ["gorouter"];
                 Scenario.vm "starting" [];
                 Scenario.vm "running" ["uaa"; "consul"]] 2000)]
             Continue
             {| n_find := 3; n_vminfos := 3; n_releases := 2; n_now := 3;
                calls := [OpVMInfos Scenario.cf] |}).
    + reflexivity.
    + left. reflexivity.
Defined.

(** C10: every snapshot sent on a streaming session has the empty State
    tag, so neither "uploading-releases" nor "deploying"; the phase shows
    only in the counts: total and done are 0 in a release-count snapshot,
    releases is 0 and total positive in an instance-count snapshot.  The
    one-shot query, unlike it, always tags its snapshot. *)
Theorem stream_snapshots_are_untagged
    (dir : Director.t) (n : nat) (g : Goroutine) (e : Env)
    (ops : list ChanOp) (fl : Flow) (e' : Env) (p : VMProgress) :
  Bosh.loop dir n g e = Some ((ops, fl), e') -> In (Send p) ops ->
  State p = "" /\
  State p <> UploadingReleases /\ State p <> Deploying /\
  ((Total p = 0 /\ Done p = 0) \/ (Releases p = 0 /\ 0 < Total p)) /\
  (forall fuel start name isErrand e0 q e1,
     Bosh.GetVMProgress dir fuel start name isErrand e0 = Some (q, e1) ->
     State q <> "").
Proof.
  intros Hl Hin.
  assert (Hone : forall fuel start name isErrand e0 q e1,
     Bosh.GetVMProgress dir fuel start name isErrand e0 = Some (q, e1) ->
     State q <> "").
  { intros fuel start name isErrand e0 q e1 Hrun.
    apply GetVMProgress_shapes in Hrun.
    destruct Hrun as (t & [-> | [(rels & ->) | (l & ->)]]); discriminate. }
  destruct (loop_sends dir n g e ops fl e' p Hl Hin)
    as [(rels & t & ->) | (l & t & Hne & ->)]; simpl.
  - repeat split; try discriminate; auto.
  - repeat split; try discriminate; auto.
    right. split; [reflexivity|].
    unfold len. destruct l; [done|simpl; lia].
Qed.

Lemma stream_snapshots_are_untagged_witness :
  State (release_snapshot ["cf"; "bosh-dns"] 0) = "".
Proof.
  apply (stream_snapshots_are_untagged Scenario.rollout 1
           {| g_start := 0; g_dep := Scenario.cf; g_total := 0 |} env0
           [Send (release_snapshot ["cf"; "bosh-dns"] 0)] Continue
           {| n_find := 0; n_vminfos := 1; n_releases := 1; n_now := 1;
              calls := [OpVMInfos Scenario.cf; OpReleases] |}).
  - reflexivity.
  - left. reflexivity.
Defined.

(** ** Where the handle is resolved *)

(** Fuel that does not outlast the failed attempts is not enough. *)
Lemma findLoop_short (dir : Director.t) (fuel : nat) (name : string)
    (e : Env) (k : nat) (dep : Deployment) :
  resolves_at dir name e k dep -> (fuel <= k)%nat ->
  Bosh.findLoop dir fuel name e = None.
Proof.
  intros [Hfail _] Hfuel.
  destruct (Bosh.findLoop dir fuel name e) as [[d e']|] eqn:Hrun;
    [|reflexivity].
  apply findLoop_inv in Hrun. destruct Hrun as (k' & Hk' & [_ Hok] & _).
  specialize (Hfail k' ltac:(lia)). rewrite Hok in Hfail. discriminate.
Qed.

(** A call of [VMProgress] that returns has looked the deployment up until
    it was found. *)
Lemma VMProgress_inv (dir : Director.t) (fuel : nat) (name : string)
    (e : Env) (ch : Chan) (g : Goroutine) (e' : Env) :
  Bosh.VMProgress dir fuel name e = Some ((ch, g), e') ->
  exists k, (k < fuel)%nat /\ resolves_at dir name e k (g_dep g) /\
    calls e' = calls e ++ replicate (S k) (OpFindDeployment name).
Proof.
  unfold Bosh.VMProgress. unfold bind at 1. unfold Bosh.Now at 1.
  unfold bind at 1.
  match goal with
  | |- context [Bosh.findLoop dir fuel name ?e1] =>
      destruct (Bosh.findLoop dir fuel name e1) as [[dep e2]|] eqn:Hrun
  end; [|discriminate].
  unfold ret. intros H. inversion H; subst. clear H.
  apply findLoop_inv in Hrun. destruct Hrun as (k & Hk & Hres & Hc).
  exists k. split; [exact Hk|]. split; [exact Hres | exact Hc].
Qed.

(** C9, as the code has it: the call of VMProgress itself resolves the
    deployment handle, by busy-polling FindDeployment in the calling
    context.  When the lookup succeeds after k failed attempts the call
    has made those k+1 lookups and nothing else, and only then returns a
    channel of capacity 1 together with the goroutine, which starts with
    the resolved handle and total 0; as long as the lookups fail the call
    has not returned.  The goroutine never looks the deployment up: it
    issues instance-list and release queries only. *)
Theorem VMProgress_resolves_in_the_caller
    (dir : Director.t) (fuel : nat) (name : string) (e : Env)
    (k : nat) (dep : Deployment) :
  resolves_at dir name e k dep -> (k < fuel)%nat ->
  exists g e',
    Bosh.VMProgress dir fuel name e = Some ((make_chan 1, g), e') /\
    g = {| g_start := now dir (n_now e); g_dep := dep; g_total := 0 |} /\
    calls e' = calls e ++ replicate (S k) (OpFindDeployment name) /\
    (forall fuel', (fuel' <= k)%nat ->
       Bosh.VMProgress dir fuel' name e = None) /\
    forall n, exists ops fl e'' cs,
      Bosh.loop dir n g e' = Some ((ops, fl), e'') /\
      calls e'' = calls e' ++ cs /\ Forall (poll_call dep) cs.
Proof.
  intros Hres Hfuel.
  set (e1 := {| n_find := n_find e; n_vminfos := n_vminfos e;
                n_releases := n_releases e; n_now := S (n_now e);
                calls := calls e |}).
  assert (Hres1 : resolves_at dir name e1 k dep) by exact Hres.
  destruct (findLoop_resolves dir k fuel name e1 dep Hres1 Hfuel)
    as (e' & Hrun & _ & _ & _ & _ & Hc).
  eexists. exists e'. split; [|split; [reflexivity|]].
  - unfold Bosh.VMProgress. unfold bind at 1. unfold Bosh.Now at 1.
    unfold bind at 1. fold e1. rewrite Hrun. reflexivity.
  - split; [exact Hc|]. split.
    + intros fuel' Hshort.
      unfold Bosh.VMProgress. unfold bind at 1. unfold Bosh.Now at 1.
      unfold bind at 1. fold e1.
      rewrite (findLoop_short dir fuel' name e1 k dep Hres1 Hshort).
      reflexivity.
    + intros n.
      match goal with
      | |- context [Bosh.loop dir n ?g0 e'] =>
          destruct (loop_total dir n g0 e') as (ops & fl & e'' & Hl);
          destruct (loop_calls dir n g0 e' ops fl e'' Hl) as (cs & Hcs & Hall)
      end.
      exists ops, fl, e'', cs. auto.
Qed.

Lemma VMProgress_resolves_in_the_caller_witness :
  exists g e',
    Bosh.VMProgress Scenario.rollout 3 "cf" env0 =
      Some ((make_chan 1, g), e') /\
    calls e' = [OpFindDeployment "cf"; OpFindDeployment "cf";
                OpFindDeployment "cf"] /\
    Bosh.VMProgress Scenario.rollout 2 "cf" env0 = None.
Proof.
  destruct (VMProgress_resolves_in_the_caller
              Scenario.rollout 3 "cf" env0 2 Scenario.cf)
    as (g & e' & Hrun & _ & Hc & Hshort & _).
  - split; [|reflexivity].
    intros [|[|j]] Hj; [reflexivity|reflexivity|lia].
  - lia.
  - exists g, e'. split; [exact Hrun|]. split; [exact Hc|].
    apply Hshort. lia.
Defined.

(** C9 as stated fails: where the deployment never becomes resolvable the
    call does not return at all, and where it does the channel comes back
    only after the caller's own lookups. *)
Lemma VMProgress_does_not_return_unresolved :
  (forall fuel, Bosh.VMProgress Scenario.unreachable fuel "cf" env0 = None) /\
  ~ returns_unresolved Scenario.unreachable "cf" env0 /\
  ~ returns_unresolved Scenario.rollout "cf" env0.
Proof.
  assert (Hnone : forall fuel,
    Bosh.VMProgress Scenario.unreachable fuel "cf" env0 = None).
  { intros fuel. unfold Bosh.VMProgress. unfold bind at 1.
    unfold Bosh.Now at 1. unfold bind at 1.
    rewrite findLoop_spins; [reflexivity|]. intros i. reflexivity. }
  split; [exact Hnone|]. split.
  - intros (fuel & ch & g & e' & Hrun & _).
    rewrite Hnone in Hrun. discriminate.
  - intros (fuel & ch & g & e' & Hrun & Hcalls).
    apply VMProgress_inv in Hrun. destruct Hrun as (k & _ & _ & Hc).
    rewrite Hc in Hcalls. discriminate.
Qed.

(** ** The supervisor's [Start] *)

(** C8: for a VM name the hypervisor does not know, Start(name) fails with
    a NotFoundError whose message is exactly "hyperv vm with name <name>
    does not exist", having issued the start command once and no more (no
    retry) and having left the hypervisor's VMs as they were. *)
Theorem Start_unknown_vm (name : string) (h : HyperV.Host) :
  HyperV.vms h !! name = None ->
  HyperV.Start name h =
  (Some (HyperV.NotFoundError
           ("hyperv vm with name " +:+ name +:+ " does not exist")),
   {| HyperV.vms := HyperV.vms h;
      HyperV.issued := HyperV.issued h ++ [HyperV.CmdStart name] |}).
Proof.
  intros Habsent. unfold HyperV.Start, HyperV.hv_start.
  rewrite Habsent. reflexivity.
Qed.

Lemma Start_unknown_vm_witness :
  HyperV.Start "some-vm" HyperV.empty_host =
  (Some (HyperV.NotFoundError "hyperv vm with name some-vm does not exist"),
   {| HyperV.vms := ∅; HyperV.issued := [HyperV.CmdStart "some-vm"] |}).
Proof.
  apply (Start_unknown_vm "some-vm" HyperV.empty_host).
  reflexivity.
Defined.

(** ** More on the stream *)

(** What an iteration does to the environment and the captured variables,
    next to what it sends: one clock reading per snapshot, at most one
    snapshot, stamped with the clock as read in this iteration. *)
Lemma tick_frame (dir : Director.t) (g : Goroutine) (e : Env)
    (ops : list ChanOp) (g1 : Goroutine) (fl : Flow) (e1 : Env) :
  Bosh.tick dir g e = Some ((ops, g1, fl), e1) ->
  n_find e1 = n_find e /\ g_start g1 = g_start g /\
  n_now e1 = (n_now e + length (sent ops))%nat /\
  (length (sent ops) <= 1)%nat /\
  (forall p, In p (sent ops) ->
     Duration p = Sub (now dir (n_now e)) (g_start g)) /\
  (g_total g <> 0 ->
     g_total g1 <> 0 /\ n_releases e1 = n_releases e /\
     calls e1 = calls e ++ [OpVMInfos (g_dep g)] /\
     Forall (fun op => op = Close \/ instance_op op) ops) /\
  (g_total g1 = 0 -> Forall release_op ops).
Proof.
  unfold Bosh.tick. unfold bind at 1. unfold Bosh.dep_VMInfos at 1.
  unfold VMInfos_returns.
  destruct (vm_infos dir (g_dep g) (n_vminfos e)) as [[|v l]|err] eqn:Hr.
  1,3: simpl; destruct (g_total g =? 0) eqn:Ht;
       [ apply Z.eqb_eq in Ht; run_call;
         destruct (releases dir (n_releases e)) as [rels|err'] eqn:Hc
       | apply Z.eqb_neq in Ht; run_call ];
       intros H; inversion H; subst; clear H; simpl;
       (repeat split); try lia; try done;
       try (intros p [<-|[]]; reflexivity);
       try (intros _; repeat constructor; unfold release_op; eauto).
  set (vmInfos := v :: l) in *.
  assert (Hlen : (len vmInfos =? 0) = false).
  { apply Z.eqb_neq. unfold len, vmInfos. simpl length. lia. }
  assert (Hpos : len vmInfos <> 0) by (by apply Z.eqb_neq).
  cbn [notnil orb]. rewrite Hlen. run_call. rewrite countDone_spec.
  assert (Hinst : instance_op
    (Send {| State := ""; Releases := 0; Total := len vmInfos;
             Done := count_done vmInfos;
             Duration := Sub (now dir (n_now e)) (g_start g) |})).
  { exists vmInfos, (Sub (now dir (n_now e)) (g_start g)). done. }
  destruct (count_done vmInfos >=? len vmInfos);
    intros H; inversion H; subst; clear H; simpl;
    (repeat split); try lia; try done;
    try (intros p [<-|[]]; reflexivity);
    repeat match goal with
           | |- Forall _ (_ :: _) => constructor
           | |- Forall _ [] => constructor
           | |- Close = Close \/ _ => left; reflexivity
           | |- _ \/ instance_op _ => right; exact Hinst
           end.
Qed.

Lemma sent_app (ops1 ops2 : list ChanOp) :
  sent (ops1 ++ ops2) = sent ops1 ++ sent ops2.
Proof. unfold sent. apply flat_map_app. Qed.

(** Once the captured [total] is not 0 the loop sends instance counts
    only. *)
Lemma loop_latched_ops (dir : Director.t) (n : nat) :
  forall g e ops fl e',
  g_total g <> 0 ->
  Bosh.loop dir n g e = Some ((ops, fl), e') ->
  Forall (fun op => op = Close \/ instance_op op) ops.
Proof.
  induction n as [|n IH]; intros g e ops fl e' Hlatch Hl.
  - inversion Hl; subst. constructor.
  - apply loop_step in Hl.
    destruct Hl as (ops1 & g1 & fl1 & e1 & Ht & _ & _ & _ & _ & Hrest).
    destruct (tick_frame dir g e ops1 g1 fl1 e1 Ht)
      as (_ & _ & _ & _ & _ & Hl1 & _).
    destruct (Hl1 Hlatch) as (Hlatch1 & _ & _ & Hops1).
    destruct fl1.
    + destruct Hrest as (ops2 & Hl2 & ->).
      apply Forall_app. split; [exact Hops1|]. eapply IH; eauto.
    + destruct Hrest as (-> & _ & _). exact Hops1.
Qed.

(** X1: on a streaming session the release-count snapshots all come
    first: the channel operations are release counts, then instance
    counts (and the close); no release count follows an instance count. *)
Theorem stream_releases_then_instances
    (dir : Director.t) (n : nat) (g : Goroutine) (e : Env)
    (ops : list ChanOp) (fl : Flow) (e' : Env) :
  Bosh.loop dir n g e = Some ((ops, fl), e') ->
  exists rs ins,
    ops = rs ++ ins /\ Forall release_op rs /\
    Forall (fun op => op = Close \/ instance_op op) ins.
Proof.
  revert g e ops fl e'.
  induction n as [|n IH]; intros g e ops fl e' Hl.
  - inversion Hl; subst. exists [], []. repeat split; constructor.
  - apply loop_step in Hl.
    destruct Hl as (ops1 & g1 & fl1 & e1 & Ht & Hrel & _ & _ & _ & Hrest).
    inversion Hrel as [l Hr Hne Hlt | l Hr Hne Hge | rels Hun Hz Hc | Hun Hor];
      subst; simpl in Hrest.
    + destruct Hrest as (ops2 & Hl2 & ->).
      eexists [], _.
      split; [reflexivity|]. split; [constructor|].
      constructor; [right; exists l; eauto|].
      eapply loop_latched_ops; [|exact Hl2].
      simpl. unfold len. destruct l; [done|simpl; lia].
    + destruct Hrest as (-> & _ & _). eexists [], _.
      split; [reflexivity|]. split; [constructor|].
      constructor; [right; exists l; eauto|].
      constructor; [by left|constructor].
    + destruct Hrest as (ops2 & Hl2 & ->).
      destruct (IH _ _ _ _ _ Hl2) as (rs & ins & -> & Hrs & Hins).
      eexists (_ :: rs), ins.
      split; [reflexivity|]. split; [|exact Hins].
      constructor; [|exact Hrs]. exists rels. eauto.
    + destruct Hrest as (ops2 & Hl2 & ->).
      destruct (IH _ _ _ _ _ Hl2) as (rs & ins & -> & Hrs & Hins).
      exists rs, ins. auto.
Qed.

Lemma stream_releases_then_instances_witness :
  exists rs ins,
    [Send (release_snapshot ["cf"; "bosh-dns"] 0);
     Send (instance_snapshot
             [Scenario.vm "running" ["gorouter"]; Scenario.vm "starting" [];
              Scenario.vm "running" ["uaa"; "consul"]] 1000)] = rs ++ ins /\
    Forall release_op rs /\
    Forall (fun op => op = Close \/ instance_op op) ins.
Proof.
  apply (stream_releases_then_instances Scenario.rollout 3
           {| g_start := 0; g_dep := Scenario.cf; g_total := 0 |} env0
           _ Continue
           {| n_find := 0; n_vminfos := 3; n_releases := 2; n_now := 2;
              calls := [OpVMInfos Scenario.cf; OpReleases;
                        OpVMInfos Scenario.cf; OpReleases;
                        OpVMInfos Scenario.cf] |}).
  reflexivity.
Defined.

(** X2: once the goroutine has seen instances (its [total] is not 0) it
    never queries the release catalog again and never sends a release
    count: whatever the director answers from then on, it only requests
    the instance list, once per iteration, and sends instance counts. *)
Theorem stream_stops_asking_for_releases
    (dir : Director.t) (n : nat) (g : Goroutine) (e : Env)
    (ops : list ChanOp) (fl : Flow) (e' : Env) :
  g_total g <> 0 ->
  Bosh.loop dir n g e = Some ((ops, fl), e') ->
  n_releases e' = n_releases e /\
  (exists m, (m <= n)%nat /\
     calls e' = calls e ++ replicate m (OpVMInfos (g_dep g))) /\
  forall p, In p (sent ops) -> Releases p = 0 /\ 0 < Total p.
Proof.
  intros Hlatch Hl. split; [|split].
  - revert g e ops fl e' Hlatch Hl.
    induction n as [|n IH]; intros g e ops fl e' Hlatch Hl.
    + inversion Hl; subst. reflexivity.
    + apply loop_step in Hl.
      destruct Hl as (ops1 & g1 & fl1 & e1 & Ht & _ & _ & _ & _ & Hrest).
      destruct (tick_frame dir g e ops1 g1 fl1 e1 Ht)
        as (_ & _ & _ & _ & _ & Hl1 & _).
      destruct (Hl1 Hlatch) as (Hlatch1 & Hrel1 & _).
      destruct fl1.
      * destruct Hrest as (ops2 & Hl2 & _).
        rewrite (IH _ _ _ _ _ Hlatch1 Hl2). exact Hrel1.
      * destruct Hrest as (_ & _ & ->). exact Hrel1.
  - revert g e ops fl e' Hlatch Hl.
    induction n as [|n IH]; intros g e ops fl e' Hlatch Hl.
    + inversion Hl; subst. exists 0%nat. split; [lia|].
      simpl. by rewrite app_nil_r.
    + apply loop_step in Hl.
      destruct Hl as (ops1 & g1 & fl1 & e1 & Ht & _ & _ & Hd & _ & Hrest).
      destruct (tick_frame dir g e ops1 g1 fl1 e1 Ht)
        as (_ & _ & _ & _ & _ & Hl1 & _).
      destruct (Hl1 Hlatch) as (Hlatch1 & _ & Hc1 & _).
      destruct fl1.
      * destruct Hrest as (ops2 & Hl2 & _).
        destruct (IH _ _ _ _ _ Hlatch1 Hl2) as (m & Hm & Hc2).
        exists (S m). split; [lia|].
        rewrite Hc2, Hc1, Hd, <- app_assoc. reflexivity.
      * destruct Hrest as (_ & _ & ->). exists 1%nat. split; [lia|].
        exact Hc1.
  - intros p Hin.
    pose proof (loop_latched_ops dir n g e ops fl e' Hlatch Hl) as Hall.
    unfold sent in Hin. apply in_flat_map in Hin.
    destruct Hin as (op & Hop & Hp).
    rewrite Forall_forall in Hall. apply list_elem_of_In in Hop.
    destruct (Hall op Hop) as [-> | (l & t & Hne & ->)]; [destruct Hp|].
    destruct Hp as [<-|[]]. simpl. split; [reflexivity|].
    unfold len. destruct l; [done|simpl; lia].
Qed.

Lemma stream_stops_asking_for_releases_witness :
  n_releases {| n_find := 0; n_vminfos := 2; n_releases := 0; n_now := 0;
                calls := [OpVMInfos Scenario.cf; OpVMInfos Scenario.cf] |}
  = n_releases env0.
Proof.
  apply (stream_stops_asking_for_releases Scenario.blank 2
           {| g_start := 0; g_dep := Scenario.cf; g_total := 3 |} env0
           [] Continue).
  - discriminate.
  - reflexivity.
Defined.

(** [Sub] keeps the order of its first argument, also where it clamps. *)
Lemma Sub_monotone (t1 t2 u : Time) : t1 <= t2 -> Sub t1 u <= Sub t2 u.
Proof.
  intros Hle. unfold Sub, minDuration, maxDuration.
  repeat match goal with
         | |- context [?a <? ?b] => destruct (Z.ltb_spec a b)
         end; lia.
Qed.

(** Every snapshot of a window is stamped with a clock reading taken in
    that window, against the start time the goroutine captured. *)
Lemma loop_stamps (dir : Director.t) (n : nat) :
  forall g e ops fl e',
  Bosh.loop dir n g e = Some ((ops, fl), e') ->
  (n_now e <= n_now e')%nat /\
  forall p, In p (sent ops) ->
    exists i, (n_now e <= i)%nat /\
      Duration p = Sub (now dir i) (g_start g).
Proof.
  induction n as [|n IH]; intros g e ops fl e' Hl.
  - inversion Hl; subst. split; [lia|]. intros p [].
  - apply loop_step in Hl.
    destruct Hl as (ops1 & g1 & fl1 & e1 & Ht & _ & _ & _ & _ & Hrest).
    destruct (tick_frame dir g e ops1 g1 fl1 e1 Ht)
      as (_ & Hs & Hn & _ & Hd & _).
    destruct fl1.
    + destruct Hrest as (ops2 & Hl2 & ->).
      destruct (IH _ _ _ _ _ Hl2) as (Hn2 & Hd2).
      split; [lia|]. intros p Hin. rewrite sent_app in Hin.
      apply in_app_or in Hin. destruct Hin as [Hin|Hin].
      * exists (n_now e). split; [lia|]. auto.
      * destruct (Hd2 p Hin) as (i & Hi & Hp).
        exists i. split; [lia|]. rewrite Hp, Hs. reflexivity.
    + destruct Hrest as (-> & _ & ->). split; [lia|].
      intros p Hin. exists (n_now e). split; [lia|]. auto.
Qed.

(** X3: on a clock that does not run backwards, the snapshots of a
    streaming session carry non-decreasing elapsed durations, in the order
    they are sent. *)
Theorem stream_elapsed_never_decreases
    (dir : Director.t) (n : nat) (g : Goroutine) (e : Env)
    (ops : list ChanOp) (fl : Flow) (e' : Env) :
  monotone_clock dir ->
  Bosh.loop dir n g e = Some ((ops, fl), e') ->
  StronglySorted Z.le (map Duration (sent ops)).
Proof.
  intros Hclock. revert g e ops fl e'.
  induction n as [|n IH]; intros g e ops fl e' Hl.
  - inversion Hl; subst. constructor.
  - apply loop_step in Hl.
    destruct Hl as (ops1 & g1 & fl1 & e1 & Ht & _ & _ & _ & _ & Hrest).
    destruct (tick_frame dir g e ops1 g1 fl1 e1 Ht)
      as (_ & Hs & Hn & Hone & Hd & _).
    assert (Hfirst : forall rest,
      StronglySorted Z.le (map Duration rest) ->
      (forall q, In q rest ->
         Sub (now dir (n_now e)) (g_start g) <= Duration q) ->
      StronglySorted Z.le (map Duration (sent ops1 ++ rest))).
    { intros rest Hsorted Hlow.
      destruct (sent ops1) as [|p [|p' tl]]; simpl in *; [exact Hsorted| |lia].
      constructor; [exact Hsorted|].
      rewrite Forall_forall. intros d Hin. apply list_elem_of_In in Hin.
      apply in_map_iff in Hin. destruct Hin as (q & <- & Hq).
      rewrite (Hd p (or_introl eq_refl)). auto. }
    destruct fl1.
    + destruct Hrest as (ops2 & Hl2 & ->). rewrite sent_app.
      apply Hfirst; [eapply IH; eauto|].
      intros q Hq.
      destruct (loop_stamps dir n g1 e1 ops2 fl e' Hl2) as (_ & Hst).
      destruct (Hst q Hq) as (i & Hi & ->). rewrite Hs.
      apply Sub_monotone. apply Hclock. lia.
    + destruct Hrest as (-> & _ & _).
      rewrite <- (app_nil_r (sent ops1)).
      apply Hfirst; [constructor|]. intros q [].
Qed.

Lemma stream_elapsed_never_decreases_witness :
  StronglySorted Z.le [1000; 2000; 3000].
Proof.
  apply (stream_elapsed_never_decreases Scenario.rollout 4
           {| g_start := 0; g_dep := Scenario.cf; g_total := 0 |}
           {| n_find := 3; n_vminfos := 0; n_releases := 0; n_now := 1;
              calls := [] |}
           [Send (release_snapshot ["cf"; "bosh-dns"] 1000);
            Send (instance_snapshot
                    [Scenario.vm "running" ["gorouter"];
                     Scenario.vm "starting" [];
                     Scenario.vm "running" ["uaa"; "consul"]] 2000);
            Send (instance_snapshot
                    [Scenario.vm "running" ["gorouter"];
                     Scenario.vm "running" ["uaa"]] 3000);
            Close]
           Return
           {| n_find := 3; n_vminfos := 4; n_releases := 2; n_now := 4;
              calls := [OpVMInfos Scenario.cf; OpReleases;
                        OpVMInfos Scenario.cf; OpReleases;
                        OpVMInfos Scenario.cf; OpVMInfos Scenario.cf] |}).
  - intros i j Hij. simpl. lia.
  - reflexivity.
Defined.

(** Every instance is done exactly when the count of done instances
    reaches the number of instances. *)
Lemma count_done_all (l : list VMInfo) :
  count_done l >= len l <-> Forall is_done l.
Proof.
  pose proof (count_done_bounds l) as Hb.
  induction l as [|v l IH].
  - split; [constructor|]. intros _. unfold count_done, len. simpl. lia.
  - pose proof (count_done_bounds l) as Hbl.
    unfold count_done, len in *. rewrite filter_cons in *.
    destruct (decide (is_done v)) as [Hv|Hv]; simpl length in *.
    + split.
      * intros Hge. constructor; [exact Hv|]. apply IH; lia.
      * intros Hall. inversion Hall; subst.
        assert (Z.of_nat (length (filter is_done l)) >= Z.of_nat (length l))
          by (apply IH; [lia|assumption]).
        lia.
    + split; [lia|]. intros Hall. inversion Hall; subst. contradiction.
Qed.

(** X4: an iteration closes the channel and returns exactly when the
    instance list it got is not empty and every instance on it has
    processState "running" and at least one process.  The snapshot sent
    before the close has done = total >= 1; an iteration that goes on
    never sends done = total with instances present. *)
Theorem tick_returns_iff_all_done
    (dir : Director.t) (g : Goroutine) (e : Env) :
  exists ops g' fl e',
    Bosh.tick dir g e = Some ((ops, g', fl), e') /\
    (fl = Return <->
       exists l, vm_infos dir (g_dep g) (n_vminfos e) = Ok l /\
                 l <> [] /\ Forall is_done l) /\
    (fl = Return ->
       exists p, ops = [Send p; Close] /\ Done p = Total p /\ 1 <= Total p) /\
    (fl = Continue ->
       forall p, In p (sent ops) -> Total p = 0 \/ Done p < Total p).
Proof.
  destruct (tick_sound dir g e) as (ops & g' & fl & e' & Ht & Hrel & _).
  exists ops, g', fl, e'. split; [exact Ht|].
  inversion Hrel as [l Hr Hne Hlt | l Hr Hne Hge | rels Hun Hz Hc | Hun Hor];
    subst.
  - split; [|split]; [split| |]; try discriminate; try done.
    + intros (l' & Hr' & _ & Hall). rewrite Hr in Hr'.
      inversion Hr'; subst. apply count_done_all in Hall. lia.
    + intros _ p [<-|[]]. right. exact Hlt.
  - split; [|split]; [split| |]; try discriminate; try done.
    + intros _. exists l. repeat split; auto. by apply count_done_all.
    + intros _. eexists. split; [reflexivity|]. simpl.
      pose proof (count_done_bounds l). split; [lia|].
      unfold len. destruct l; [done|simpl; lia].
  - split; [|split]; [split| |]; try discriminate; try done.
    + intros (l' & Hr' & Hne' & _). destruct Hun as [Hf|Hf];
        rewrite Hr' in Hf; [discriminate|inversion Hf; subst; done].
    + intros _ p [<-|[]]. by left.
  - split; [|split]; [split| |]; try discriminate; try done.
    + intros (l' & Hr' & Hne' & _). destruct Hun as [Hf|Hf];
        rewrite Hr' in Hf; [discriminate|inversion Hf; subst; done].
Qed.

(** X5: the one-shot query and the first iteration of a fresh streaming
    session, put to the same director answers, report the same numbers:
    the iteration sends the snapshot GetVMProgress returns, with the state
    tag cleared.  They differ in one case only: when the instance list is
    unavailable and the release query fails, the stream sends nothing and
    GetVMProgress answers "deploying" with the counts of the list the
    instance list request returned (0/0 when it returned none). *)
Theorem first_tick_agrees_with_GetVMProgress
    (dir : Director.t) (fuel : nat) (name : string) (e : Env)
    (k : nat) (dep : Deployment) (g : Goroutine) :
  resolves_at dir name e k dep -> (k < fuel)%nat ->
  g_dep g = dep -> g_total g = 0 ->
  exists p e1 ops g' fl e2,
    Bosh.GetVMProgress dir fuel (g_start g) name false e = Some (p, e1) /\
    Bosh.tick dir g e = Some ((ops, g', fl), e2) /\
    (sent ops = [untagged p] \/
     (sent ops = [] /\
      p = {| State := "deploying"; Releases := 0;
             Total := len (fst (VMInfos_returns dir dep (n_vminfos e)));
             Done := count_done (fst (VMInfos_returns dir dep (n_vminfos e)));
             Duration := Sub (now dir (n_now e)) (g_start g) |} /\
      unavailable (vm_infos dir dep (n_vminfos e)) /\
      is_ok (releases dir (n_releases e)) = false)).
Proof.
  intros Hres Hfuel Hdep Hzero.
  destruct (GetVMProgress_prefix dir fuel (g_start g) name e k dep Hres Hfuel)
    as (e1 & Hn & Hc & ->).
  unfold Bosh.tick. unfold bind at 3. unfold Bosh.dep_VMInfos at 1.
  unfold VMInfos_returns. rewrite Hdep, Hzero.
  destruct (vm_infos dir dep (n_vminfos e)) as [[|v l]|err] eqn:Hr.
  1,3: run_call; rewrite Hc;
       destruct (releases dir (n_releases e)) as [rels|err2] eqn:Hrel;
       rewrite Hn, ?countDone_spec; do 6 eexists;
       (split; [reflexivity|]); (split; [reflexivity|]);
       first [ by left
             | right; repeat split; unfold unavailable; rewrite ?Hr; auto ].
  set (vmInfos := v :: l) in *.
  assert (Hlen : (len vmInfos =? 0) = false).
  { apply Z.eqb_neq. unfold len, vmInfos. simpl length. lia. }
  cbn [notnil orb]. cbv zeta. rewrite Hlen. run_call. rewrite Hn.
  destruct (Bosh.countDone vmInfos >=? len vmInfos);
    do 6 eexists; (split; [reflexivity|]); (split; [reflexivity|]);
    left; reflexivity.
Qed.

Lemma first_tick_agrees_with_GetVMProgress_witness :
  exists p e1 ops g' fl e2,
    Bosh.GetVMProgress Scenario.rollout 3 0 "cf" false env0 = Some (p, e1) /\
    Bosh.tick Scenario.rollout
      {| g_start := 0; g_dep := Scenario.cf; g_total := 0 |} env0 =
      Some ((ops, g', fl), e2) /\
    sent ops = [untagged p].
Proof.
  destruct (first_tick_agrees_with_GetVMProgress Scenario.rollout 3 "cf"
              env0 2 Scenario.cf
              {| g_start := 0; g_dep := Scenario.cf; g_total := 0 |})
    as (p & e1 & ops & g' & fl & e2 & Hone & Htick & Hagree).
  - split; [|reflexivity].
    intros [|[|j]] Hj; [reflexivity|reflexivity|lia].
  - lia.
  - reflexivity.
  - reflexivity.
  - exists p, e1, ops, g', fl, e2. split; [exact Hone|].
    split; [exact Htick|].
    destruct Hagree as [Hsame | (_ & _ & _ & Hrel)]; [exact Hsame|].
    discriminate Hrel.
Defined.

(** X6: the director operations of one GetVMProgress call (isErrand
    false), in order: one FindDeployment per attempt until the first that
    succeeds, then one instance-list request, then one release query if
    and only if the instance list failed or was empty.  With instances
    present the release catalog is not queried.  The clock is read once. *)
Theorem GetVMProgress_call_sequence
    (dir : Director.t) (fuel : nat) (start : Time) (name : string)
    (e : Env) (k : nat) (dep : Deployment) :
  resolves_at dir name e k dep -> (k < fuel)%nat ->
  exists p e',
    Bosh.GetVMProgress dir fuel start name false e = Some (p, e') /\
    calls e' =
      calls e ++ replicate (S k) (OpFindDeployment name) ++
      OpVMInfos dep ::
      match vm_infos dir dep (n_vminfos e) with
      | Ok (_ :: _) => []
      | _ => [OpReleases]
      end /\
    n_now e' = S (n_now e).
Proof.
  intros Hres Hfuel.
  destruct (findLoop_resolves dir k fuel name e dep Hres Hfuel)
    as (e0 & Hrun & _ & Hv & Hr & Hn & Hc).
  unfold Bosh.GetVMProgress. unfold bind at 1. rewrite Hrun.
  unfold bind at 1. unfold Bosh.dep_VMInfos at 1.
  unfold VMInfos_returns. rewrite Hv.
  destruct (vm_infos dir dep (n_vminfos e)) as [[|v l]|err].
  1,3: run_call; destruct (releases dir (n_releases e0));
       do 2 eexists; (split; [reflexivity|]); simpl;
       rewrite Hc, Hn, <- !app_assoc; split; reflexivity.
  set (vmInfos := v :: l) in *.
  assert (Hlen : (len vmInfos =? 0) = false).
  { apply Z.eqb_neq. unfold len, vmInfos. simpl length. lia. }
  cbn [notnil orb]. cbv zeta. rewrite Hlen. run_call.
  do 2 eexists. split; [reflexivity|]. simpl.
  rewrite Hc, Hn, <- !app_assoc. split; reflexivity.
Qed.

Lemma GetVMProgress_call_sequence_witness :
  exists p e',
    Bosh.GetVMProgress Scenario.rollout 3 0 "cf" false env0 = Some (p, e') /\
    calls e' = [OpFindDeployment "cf"; OpFindDeployment "cf";
                OpFindDeployment "cf"; OpVMInfos Scenario.cf; OpReleases] /\
    n_now e' = 1%nat.
Proof.
  apply (GetVMProgress_call_sequence Scenario.rollout 3 0 "cf" env0 2
           Scenario.cf).
  - split; [|reflexivity].
    intros [|[|j]] Hj; [reflexivity|reflexivity|lia].
  - lia.
Defined.

(** X7: a session on a director whose instance list stays unavailable and
    whose release catalog keeps failing is silent for ever: however many
    iterations go by, nothing is sent, the channel is not closed and the
    goroutine has not returned; it has asked for the instance list once
    per iteration. *)
Theorem stream_stalls_silently
    (dir : Director.t) (g : Goroutine) :
  (forall i, unavailable (vm_infos dir (g_dep g) i)) ->
  (forall i, is_ok (releases dir i) = false) ->
  forall n e, exists e',
    Bosh.loop dir n g e = Some (([], Continue), e') /\
    n_vminfos e' = (n_vminfos e + n)%nat.
Proof.
  intros Hnone Hfail n. induction n as [|n IH]; intros e.
  - exists e. split; [reflexivity|]. lia.
  - destruct (tick_sound dir g e) as (ops & g1 & fl & e1 & Ht & Hrel & Hv & _).
    assert (Hsilent : ops = [] /\ g1 = g /\ fl = Continue).
    { inversion Hrel as [l Hr Hne _ | l Hr Hne _ | rels _ _ Hc | _ _]; subst;
        auto.
      1,2: destruct (Hnone (n_vminfos e)) as [Hf|Hf]; rewrite Hr in Hf;
           [discriminate | inversion Hf; subst; done].
      specialize (Hfail (n_releases e)). rewrite Hc in Hfail.
      discriminate. }
    destruct Hsilent as (-> & -> & ->).
    destruct (IH e1) as (e' & Hl & Hv').
    exists e'. split; [|lia].
    apply (loop_continue dir n g e [] g e1 [] Continue e' Ht Hl).
Qed.

Lemma stream_stalls_silently_witness :
  exists e',
    Bosh.loop Scenario.failing 5
      {| g_start := 0; g_dep := Scenario.cf; g_total := 0 |} env0 =
    Some (([], Continue), e') /\
    n_vminfos e' = 5%nat.
Proof.
  apply (stream_stalls_silently Scenario.failing
           {| g_start := 0; g_dep := Scenario.cf; g_total := 0 |}).
  - intros i. left. reflexivity.
  - intros i. reflexivity.
Defined.

(** X8: in a window of [n] iterations the goroutine requests the instance
    list once per iteration it runs (all [n] unless it returned earlier),
    sends at most one snapshot per request and reads the clock once per
    snapshot. *)
Theorem stream_one_poll_per_tick
    (dir : Director.t) (n : nat) (g : Goroutine) (e : Env)
    (ops : list ChanOp) (fl : Flow) (e' : Env) :
  Bosh.loop dir n g e = Some ((ops, fl), e') ->
  exists m,
    (m <= n)%nat /\ n_vminfos e' = (n_vminfos e + m)%nat /\
    (length (sent ops) <= m)%nat /\
    n_now e' = (n_now e + length (sent ops))%nat /\
    (fl = Continue -> m = n).
Proof.
  revert g e ops fl e'.
  induction n as [|n IH]; intros g e ops fl e' Hl.
  - inversion Hl; subst. exists 0%nat. simpl. repeat split; lia.
  - apply loop_step in Hl.
    destruct Hl as (ops1 & g1 & fl1 & e1 & Ht & _ & Hv & _ & _ & Hrest).
    destruct (tick_frame dir g e ops1 g1 fl1 e1 Ht)
      as (_ & _ & Hn & Hone & _).
    destruct fl1.
    + destruct Hrest as (ops2 & Hl2 & ->).
      destruct (IH _ _ _ _ _ Hl2) as (m & Hm & Hv2 & Hs2 & Hn2 & Hfull).
      exists (S m). rewrite sent_app, length_app.
      repeat split; try lia. intros Hfl. rewrite (Hfull Hfl). reflexivity.
    + destruct Hrest as (-> & -> & ->). exists 1%nat.
      repeat split; try lia. discriminate.
Qed.

(** X8's numbers on [Scenario.rollout]: four iterations, four requests,
    three snapshots. *)
Lemma stream_one_poll_per_tick_witness :
  exists m,
    (m <= 10)%nat /\ 4%nat = (0 + m)%nat /\ (3 <= m)%nat /\
    4%nat = (1 + 3)%nat /\ (Return = Continue -> m = 10%nat).
Proof.
  apply (stream_one_poll_per_tick Scenario.rollout 10
           {| g_start := 0; g_dep := Scenario.cf; g_total := 0 |}
           {| n_find := 3; n_vminfos := 0; n_releases := 0; n_now := 1;
              calls := [] |}
           [Send (release_snapshot ["cf"; "bosh-dns"] 1000);
            Send (instance_snapshot
                    [Scenario.vm "running" ["gorouter"];
                     Scenario.vm "starting" [];
                     Scenario.vm "running" ["uaa"; "consul"]] 2000);
            Send (instance_snapshot
                    [Scenario.vm "running" ["gorouter"];
                     Scenario.vm "running" ["uaa"]] 3000);
            Close]
           Return
           {| n_find := 3; n_vminfos := 4; n_releases := 2; n_now := 4;
              calls := [OpVMInfos Scenario.cf; OpReleases;
                        OpVMInfos Scenario.cf; OpReleases;
                        OpVMInfos Scenario.cf; OpVMInfos Scenario.cf] |}).
  reflexivity.
Defined.

(** ** Connecting to the director *)

Section Connecting.

Variable Join : string -> string -> string.
Variable TrimSpace : string -> string.
Variable ReadFile : string -> result string.
Variable Factory_New : Connect.FactoryConfig -> result Director.t.
Variable SafeWrap : error -> string -> error.

(** X9: [New] yields a client exactly when the secret and the CA
    certificate can both be read and the factory accepts the
    configuration built from them: the configured director address, port
    25555, client "admin", and the two file contents trimmed.  The client
    then holds the director the factory returned. *)
Theorem New_succeeds_iff (cfg : Connect.Config) (b : Connect.Bosh) :
  fst (Connect.New Join TrimSpace ReadFile Factory_New SafeWrap cfg) = Ok b <->
  exists secret ca,
    ReadFile (Join (Connect.StateBosh cfg) "secret") = Ok secret /\
    ReadFile (Join (Connect.StateBosh cfg) "ca.crt") = Ok ca /\
    Factory_New
      {| Connect.Host := Connect.BoshDirectorIP cfg;
         Connect.Port := 25555;
         Connect.CACert := TrimSpace ca;
         Connect.Client := "admin";
         Connect.ClientSecret := TrimSpace secret |} = Ok (Connect.dir b).
Proof.
  unfold Connect.New.
  destruct (ReadFile (Join (Connect.StateBosh cfg) "secret"))
    as [secret|err] eqn:Hs.
  - destruct (ReadFile (Join (Connect.StateBosh cfg) "ca.crt"))
      as [ca|err] eqn:Hc.
    + simpl. split.
      * intros Hnew. exists secret, ca. split; [reflexivity|].
        split; [reflexivity|].
        destruct (Factory_New _) as [d|err]; simpl in Hnew;
          [|discriminate].
        inversion Hnew; subst. reflexivity.
      * intros (s' & ca' & Hs' & Hc' & Hf).
        inversion Hs'; inversion Hc'; subst. rewrite Hf.
        simpl. destruct b. reflexivity.
    + simpl. split; [discriminate|].
      intros (s' & ca' & _ & Hc' & _). discriminate.
  - simpl. split; [discriminate|].
    intros (s' & ca' & Hs' & _). discriminate.
Qed.

(** X10: [New] reads the secret first and gives up at the first failure,
    returning that failure as it is: an unreadable secret means the CA
    certificate is not read, and unless both files were read the director
    factory is not called.  It is never called more than once. *)
Theorem New_fails_early (cfg : Connect.Config) :
  let secretPath := Join (Connect.StateBosh cfg) "secret" in
  let caPath := Join (Connect.StateBosh cfg) "ca.crt" in
  (forall err, ReadFile secretPath = Err err ->
     Connect.New Join TrimSpace ReadFile Factory_New SafeWrap cfg =
     (Err err, [Connect.DidReadFile secretPath])) /\
  (forall secret err,
     ReadFile secretPath = Ok secret -> ReadFile caPath = Err err ->
     Connect.New Join TrimSpace ReadFile Factory_New SafeWrap cfg =
     (Err err, [Connect.DidReadFile secretPath;
                Connect.DidReadFile caPath])) /\
  (forall fc,
     In (Connect.DidNewDirector fc)
        (snd (Connect.New Join TrimSpace ReadFile Factory_New SafeWrap cfg)) ->
     is_ok (ReadFile secretPath) = true /\ is_ok (ReadFile caPath) = true /\
     snd (Connect.New Join TrimSpace ReadFile Factory_New SafeWrap cfg) =
       [Connect.DidReadFile secretPath; Connect.DidReadFile caPath;
        Connect.DidNewDirector fc] /\
     (forall err, Factory_New fc = Err err ->
        fst (Connect.New Join TrimSpace ReadFile Factory_New SafeWrap cfg) =
        Err (SafeWrap err "failed to connect to bosh director"))).
Proof.
  intros secretPath caPath. unfold Connect.New.
  fold secretPath caPath.
  destruct (ReadFile secretPath) as [secret|err] eqn:Hs.
  - destruct (ReadFile caPath) as [ca|err] eqn:Hc.
    + split; [discriminate|]. split; [discriminate|].
      intros fc Hin. cbv zeta in Hin |- *.
      destruct (Factory_New _) as [d|err] eqn:Hf; simpl in Hin;
        destruct Hin as [Hin|[Hin|[Hin|[]]]]; try discriminate;
        inversion Hin; subst; simpl;
        (repeat split); try reflexivity;
        intros err' Hf'; rewrite Hf in Hf'; inversion Hf'; subst;
        reflexivity.
    + split; [discriminate|]. split.
      * intros s' err' _ Herr. inversion Herr; subst. reflexivity.
      * simpl. intros fc [Hin|[Hin|[]]]; discriminate.
  - split.
    + intros err' Herr. inversion Herr; subst. reflexivity.
    + split; [discriminate|].
      simpl. intros fc [Hin|[]]. discriminate.
Qed.

End Connecting.

(** ** The response handlers *)

Section Handlers.

Variable GOOS : string.
Variable ServicePlanGuid : string -> string.
Variable serviceIsWhiteListed : string -> bool.

(** X11: [ServiceCreate.HandleResponse] offers an event to the analytics
    client exactly when both Cloud Controller fetches succeed and the
    service label is whitelisted, and then exactly one: "created service",
    for the handler's user and timestamp, with the four properties
    service (the label the second fetch returned), os, plugin_version and
    os_version and no other. *)
Theorem ServiceCreate_event (c : ServiceCreate.t) (body : string) :
  let r := ServiceCreate.HandleResponse GOOS ServicePlanGuid
             serviceIsWhiteListed c body in
  ((exists t, enqueued (snd r) = [t]) <->
   exists urlResp labelResp,
     ServiceCreate.CCClient c 0
       ("/v2/service_plans/" +:+ ServicePlanGuid body) = Ok urlResp /\
     ServiceCreate.CCClient c 1 (ServiceURL urlResp) = Ok labelResp /\
     serviceIsWhiteListed (Label labelResp) = true) /\
  (enqueued (snd r) = [] \/ exists t, enqueued (snd r) = [t]) /\
  forall t, In t (enqueued (snd r)) ->
    Event t = "created service" /\
    UserId t = ServiceCreate.UUID c /\
    Timestamp t = ServiceCreate.TimeStamp c /\
    (exists urlResp labelResp,
       ServiceCreate.CCClient c 0
         ("/v2/service_plans/" +:+ ServicePlanGuid body) = Ok urlResp /\
       ServiceCreate.CCClient c 1 (ServiceURL urlResp) = Ok labelResp /\
       Properties t !! "service" = Some (Label labelResp) /\
       serviceIsWhiteListed (Label labelResp) = true) /\
    Properties t !! "os" = Some GOOS /\
    Properties t !! "plugin_version" = Some (ServiceCreate.Version c) /\
    Properties t !! "os_version" = Some (ServiceCreate.OSVersion c) /\
    dom (Properties t) =
      ({["service"; "os"; "plugin_version"; "os_version"]} : gset string).
Proof.
  unfold ServiceCreate.HandleResponse.
  destruct (ServiceCreate.CCClient c 0 _) as [urlResp|err] eqn:H0.
  2: { simpl. split; [|split; [by left|intros t []]].
       split; [intros [t Ht]; discriminate|].
       intros (u & l & Hu & _). discriminate. }
  destruct (ServiceCreate.CCClient c 1 _) as [labelResp|err] eqn:H1.
  2: { simpl. split; [|split; [by left|intros t []]].
       split; [intros [t Ht]; discriminate|].
       intros (u & l & Hu & Hl & _). inversion Hu; subst.
       rewrite H1 in Hl. discriminate. }
  destruct (serviceIsWhiteListed (Label labelResp)) eqn:Hw.
  2: { simpl. split; [|split; [by left|intros t []]].
       split; [intros [t Ht]; discriminate|].
       intros (u & l & Hu & Hl & Hw'). inversion Hu; subst.
       rewrite H1 in Hl. inversion Hl; subst. congruence. }
  cbv zeta. cbn [negb].
  match goal with
  | |- context [ServiceCreate.AnalyticsClient c ?t] => set (track := t)
  end.
  assert (Hfields :
    Event track = "created service" /\
    UserId track = ServiceCreate.UUID c /\
    Timestamp track = ServiceCreate.TimeStamp c /\
    (exists urlResp labelResp,
       ServiceCreate.CCClient c 0
         ("/v2/service_plans/" +:+ ServicePlanGuid body) = Ok urlResp /\
       ServiceCreate.CCClient c 1 (ServiceURL urlResp) = Ok labelResp /\
       Properties track !! "service" = Some (Label labelResp) /\
       serviceIsWhiteListed (Label labelResp) = true) /\
    Properties track !! "os" = Some GOOS /\
    Properties track !! "plugin_version" = Some (ServiceCreate.Version c) /\
    Properties track !! "os_version" = Some (ServiceCreate.OSVersion c) /\
    dom (Properties track) =
      ({["service"; "os"; "plugin_version"; "os_version"]} : gset string)).
  { subst track. simpl. repeat split; try done.
    exists urlResp, labelResp. repeat split; try done. }
  destruct (ServiceCreate.AnalyticsClient c track); simpl;
    (split; [split; [eauto | intros _; eauto] |]);
    (split; [right; eauto |]);
    intros t [<-|[]];
    destruct Hfields as (He & Hu & Ht & _ & Ho & Hp & Hov & Hd);
    (split; [exact He|]); (split; [exact Hu|]); (split; [exact Ht|]);
    (split; [|auto]);
    exists urlResp, labelResp; repeat split; done.
Qed.

(** X12: [ServiceCreate.HandleResponse] fetches the service plan first,
    at "/v2/service_plans/" followed by the plan GUID of the body, and
    then, only if that succeeded, the URL the plan names; never a third
    time.  A failed fetch is returned as "failed to make request to:
    <path>: <error>" for the path that failed, and no event is offered.
    A label that is not whitelisted is not an error. *)
Theorem ServiceCreate_fetches (c : ServiceCreate.t) (body : string) :
  let r := ServiceCreate.HandleResponse GOOS ServicePlanGuid
             serviceIsWhiteListed c body in
  let path := "/v2/service_plans/" +:+ ServicePlanGuid body in
  fetched (snd r) =
    path :: match ServiceCreate.CCClient c 0 path with
            | Ok urlResp => [ServiceURL urlResp]
            | Err _ => []
            end /\
  (forall p err,
     last (fetched (snd r)) = Some p ->
     ServiceCreate.CCClient c (length (fetched (snd r)) - 1) p = Err err ->
     fst r = Some ("failed to make request to: " +:+ p +:+ ": " +:+ err) /\
     enqueued (snd r) = []) /\
  (forall urlResp labelResp,
     ServiceCreate.CCClient c 0 path = Ok urlResp ->
     ServiceCreate.CCClient c 1 (ServiceURL urlResp) = Ok labelResp ->
     serviceIsWhiteListed (Label labelResp) = false ->
     fst r = None /\ enqueued (snd r) = []).
Proof.
  unfold ServiceCreate.HandleResponse. cbv zeta.
  destruct (ServiceCreate.CCClient c 0 _) as [urlResp|err] eqn:H0.
  2: { simpl. split; [reflexivity|]. split.
       - intros p err' Hp Herr. inversion Hp; subst.
         rewrite H0 in Herr. inversion Herr; subst. done.
       - intros u l Hu. discriminate. }
  destruct (ServiceCreate.CCClient c 1 _) as [labelResp|err] eqn:H1.
  2: { simpl. split; [reflexivity|]. split.
       - intros p err' Hp Herr. inversion Hp; subst.
         rewrite H1 in Herr. inversion Herr; subst. done.
       - intros u l Hu Hl. inversion Hu; subst. rewrite H1 in Hl.
         discriminate. }
  destruct (serviceIsWhiteListed (Label labelResp)) eqn:Hw; cbn [negb].
  - destruct (ServiceCreate.AnalyticsClient c _); simpl;
      (split; [reflexivity|]); split.
    1,3: intros p err' Hp Herr; inversion Hp; subst;
         rewrite H1 in Herr; discriminate.
    1,2: intros u l Hu Hl Hw'; inversion Hu; subst; rewrite H1 in Hl;
         inversion Hl; subst; congruence.
  - simpl. split; [reflexivity|]. split.
    + intros p err' Hp Herr. inversion Hp; subst.
      rewrite H1 in Herr. discriminate.
    + done.
Qed.

(** X13: [OrgCreate.HandleResponse] does not look at the body and never
    asks the Cloud Controller: whatever it is given it offers one event,
    "org created", with the properties os, plugin_version and os_version
    (and no service), and returns an error exactly when the analytics
    client refuses that event. *)
Theorem OrgCreate_event (c : OrgCreate.t) (body : string) :
  let r := OrgCreate.HandleResponse GOOS c body in
  fetched (snd r) = [] /\
  (forall body', OrgCreate.HandleResponse GOOS c body' = r) /\
  exists t,
    snd r = [DidEnqueue t] /\
    Event t = "org created" /\ UserId t = OrgCreate.UUID c /\
    Timestamp t = OrgCreate.TimeStamp c /\
    Properties t !! "service" = None /\
    dom (Properties t) =
      ({["os"; "plugin_version"; "os_version"]} : gset string) /\
    (fst r = None <-> OrgCreate.AnalyticsClient c t = None) /\
    (forall err, OrgCreate.AnalyticsClient c t = Some err ->
       fst r = Some ("failed to send analytics: " +:+ err)).
Proof.
  unfold OrgCreate.HandleResponse. cbv zeta.
  match goal with
  | |- context [OrgCreate.AnalyticsClient c ?t] => set (track := t)
  end.
  destruct (OrgCreate.AnalyticsClient c track) as [err|] eqn:Ha; simpl;
    (split; [reflexivity|]); (split; [reflexivity|]);
    exists track; (split; [reflexivity|]); subst track; simpl;
    repeat split; try done;
    try (rewrite !dom_insert_L, dom_empty_L; set_solver).
  - intros Hnone. rewrite Ha in Hnone. discriminate.
  - intros err' Herr. rewrite Ha in Herr. inversion Herr; subst.
    reflexivity.
  - intros err' Herr. rewrite Ha in Herr. discriminate.
Qed.

End Handlers.

(** ** Naming the test VM *)

Lemma letterRunes_len : len HyperVTest.letterRunes = 52.
Proof. reflexivity. Qed.

Lemma letterRunes_letters : Forall HyperVTest.is_letter HyperVTest.letterRunes.
Proof.
  unfold HyperVTest.letterRunes. simpl.
  repeat (apply List.Forall_cons;
          [unfold HyperVTest.is_letter; vm_compute; lia|]).
  apply List.Forall_nil.
Qed.

Lemma letterRunes_NoDup : NoDup HyperVTest.letterRunes.
Proof. apply (bool_decide_unpack _). vm_compute. exact I. Qed.

(** Indexing succeeds exactly in range, where it is list lookup. *)
Lemma index_Some {A} (s : list A) (k : Z) (x : A) :
  HyperVTest.index s k = Some x <->
  0 <= k < len s /\ s !! Z.to_nat k = Some x.
Proof.
  unfold HyperVTest.index.
  destruct (Z.ltb_spec k 0), (Z.leb_spec (len s) k); simpl;
    split; try discriminate; try (intros [? _]; lia).
  - intros Hx. split; [lia|exact Hx].
  - intros [_ Hx]. exact Hx.
Qed.

Lemma string_of_list_ascii_length (b : list Ascii.ascii) :
  String.length (String.string_of_list_ascii b) = length b.
Proof. induction b as [|c b IH]; simpl; congruence. Qed.

(** The runes a name is made of, one per draw. *)
Lemma fill_spec (Intn : nat -> Z -> Z) (size : nat) (b : list Ascii.ascii) :
  HyperVTest.fill Intn size = Some b <->
  length b = size /\
  forall i, (i < size)%nat ->
    0 <= Intn i 52 < 52 /\
    HyperVTest.letterRunes !! Z.to_nat (Intn i 52) = b !! i.
Proof.
  unfold HyperVTest.fill. rewrite letterRunes_len, mapM_Some.
  rewrite Forall2_lookup. split.
  - intros Hall.
    assert (Hlen : length b = size).
    { destruct (decide (length b = size)) as [|Hne]; [done|].
      destruct (decide (length b < size)%nat).
      - specialize (Hall (length b)).
        rewrite lookup_seq_lt, lookup_ge_None_2 in Hall by lia.
        inversion Hall.
      - specialize (Hall size).
        rewrite lookup_ge_None_2 in Hall by (rewrite length_seq; lia).
        destruct (lookup_lt_is_Some_2 b size ltac:(lia)) as [c Hc].
        rewrite Hc in Hall. inversion Hall. }
    split; [exact Hlen|]. intros i Hi. specialize (Hall i).
    rewrite lookup_seq_lt in Hall by lia. simpl in Hall.
    inversion Hall as [x c Hx Heq1 Heq2|]; subst.
    apply index_Some in Hx. rewrite letterRunes_len in Hx.
    destruct Hx as [Hr Hx]. split; [exact Hr|]. congruence.
  - intros [Hlen Hall] i.
    destruct (decide (i < size)%nat) as [Hi|Hi].
    + destruct (Hall i Hi) as [Hr Hx].
      rewrite lookup_seq_lt by lia. simpl.
      destruct (lookup_lt_is_Some_2 b i ltac:(lia)) as [c Hc].
      rewrite Hc. constructor. apply index_Some.
      rewrite letterRunes_len. split; [exact Hr|]. congruence.
    + rewrite !lookup_ge_None_2 by (rewrite ?length_seq; lia).
      constructor.
Qed.

(** X14: with [rand.Intn] keeping to its range, [randomVMName] returns
    "some-vm" followed by ten ASCII letters, seventeen bytes in all. *)
Theorem randomVMName_shape (Intn : nat -> Z -> Z) :
  HyperVTest.Intn_in_range Intn ->
  exists b,
    HyperVTest.randomVMName Intn =
      Some ("some-vm" +:+ String.string_of_list_ascii b) /\
    length b = 10%nat /\ Forall HyperVTest.is_letter b /\
    String.length ("some-vm" +:+ String.string_of_list_ascii b) = 17%nat.
Proof.
  intros Hrange.
  assert (Hdraw : forall i, 0 <= Intn i 52 < 52) by (intros i; apply Hrange; lia).
  assert (Hsome : is_Some (HyperVTest.fill Intn 10)).
  { unfold HyperVTest.fill. apply mapM_is_Some. rewrite Forall_forall.
    intros i _. simpl. rewrite letterRunes_len.
    destruct (lookup_lt_is_Some_2 HyperVTest.letterRunes
                (Z.to_nat (Intn i 52))) as [c Hc].
    { pose proof letterRunes_len as Hl. unfold len in Hl.
      specialize (Hdraw i). lia. }
    exists c. apply index_Some. rewrite letterRunes_len. auto. }
  destruct Hsome as [b Hb]. exists b.
  unfold HyperVTest.randomVMName. rewrite Hb.
  apply fill_spec in Hb. destruct Hb as [Hlen Hall].
  split; [reflexivity|]. split; [exact Hlen|]. split.
  - rewrite Forall_lookup. intros i c Hc.
    assert (Hi : (i < 10)%nat) by (apply lookup_lt_Some in Hc; lia).
    destruct (Hall i Hi) as [_ Hx]. rewrite Hc in Hx.
    pose proof letterRunes_letters as Hl. rewrite Forall_lookup in Hl.
    eapply Hl; eauto.
  - change (S (S (S (S (S (S (S
             (String.length (String.string_of_list_ascii b)))))))) = 17%nat).
    rewrite string_of_list_ascii_length, Hlen. reflexivity.
Qed.

Lemma randomVMName_shape_witness :
  exists b,
    HyperVTest.randomVMName (fun i n => Z.of_nat (7 * i) mod n) =
      Some ("some-vm" +:+ String.string_of_list_ascii b) /\
    length b = 10%nat /\ Forall HyperVTest.is_letter b /\
    String.length ("some-vm" +:+ String.string_of_list_ascii b) = 17%nat.
Proof.
  apply (randomVMName_shape (fun i n => Z.of_nat (7 * i) mod n)).
  intros i n Hn. apply Z.mod_pos_bound. exact Hn.
Defined.

(** X15: the name determines the draws: two runs of [randomVMName] that
    return the same name drew the same ten numbers.  (The 52 letters are
    pairwise different.) *)
Theorem randomVMName_injective (Intn Intn' : nat -> Z -> Z) (name : string) :
  HyperVTest.randomVMName Intn = Some name ->
  HyperVTest.randomVMName Intn' = Some name ->
  forall i, (i < 10)%nat -> Intn i 52 = Intn' i 52.
Proof.
  unfold HyperVTest.randomVMName.
  destruct (HyperVTest.fill Intn 10) as [b|] eqn:Hb; [|discriminate].
  destruct (HyperVTest.fill Intn' 10) as [b'|] eqn:Hb'; [|discriminate].
  intros Hn Hn'. rewrite <- Hn in Hn'.
  assert (Hs : String.string_of_list_ascii b' =
               String.string_of_list_ascii b).
  { simpl in Hn'. inversion Hn' as [Hs]. exact Hs. }
  assert (Hbb : b' = b).
  { rewrite <- (String.list_ascii_of_string_of_list_ascii b'),
            <- (String.list_ascii_of_string_of_list_ascii b).
    rewrite Hs. reflexivity. }
  subst b'. apply fill_spec in Hb, Hb'.
  destruct Hb as [Hlen Hall], Hb' as [_ Hall'].
  intros i Hi.
  destruct (Hall i Hi) as [Hr Hx], (Hall' i Hi) as [Hr' Hx'].
  destruct (lookup_lt_is_Some_2 b i ltac:(lia)) as [c Hc].
  rewrite Hc in Hx, Hx'.
  pose proof (NoDup_lookup _ _ _ _ letterRunes_NoDup Hx Hx') as Hsame.
  lia.
Qed.

Lemma randomVMName_injective_witness :
  (fun (j : nat) (n : Z) => Z.of_nat j) 3%nat 52 =
  (fun (j : nat) (n : Z) => Z.of_nat j mod n) 3%nat 52.
Proof.
  apply (randomVMName_injective
           (fun j n => Z.of_nat j) (fun j n => Z.of_nat j mod n)
           "some-vmabcdefghij").
  - reflexivity.
  - reflexivity.
  - lia.
Defined.

(** ** The counting loop and the windows, once more *)

(** X16: the number of done instances that [GetVMProgress] and the stream
    report does not depend on the order in which the director lists the
    instances, adds up over concatenated lists, and lies between 0 and
    the number of instances. *)
Theorem countDone_order_independent (l l' l1 l2 : list VMInfo) :
  l ≡ₚ l' ->
  Bosh.countDone l = Bosh.countDone l' /\
  Bosh.countDone (l1 ++ l2) = Bosh.countDone l1 + Bosh.countDone l2 /\
  0 <= Bosh.countDone l <= len l.
Proof.
  intros Hperm. rewrite !countDone_spec. split; [|split].
  - unfold count_done, len. rewrite Hperm. reflexivity.
  - unfold count_done, len. rewrite filter_app, length_app. lia.
  - apply count_done_bounds.
Qed.

Lemma countDone_order_independent_witness :
  Bosh.countDone [Scenario.vm "running" ["uaa"]; Scenario.vm "starting" []] =
  Bosh.countDone [Scenario.vm "starting" []; Scenario.vm "running" ["uaa"]].
Proof.
  apply (countDone_order_independent
           [Scenario.vm "running" ["uaa"]; Scenario.vm "starting" []]
           [Scenario.vm "starting" []; Scenario.vm "running" ["uaa"]]
           [] []).
  apply Permutation_swap.
Defined.

(** A longer window shows what a shorter one showed, followed by what
    came later; after a return nothing comes later. *)
Lemma loop_extend
    (dir : Director.t) (n : nat) (g : Goroutine) (e : Env)
    (ops : list ChanOp) (fl : Flow) (e' : Env) :
  Bosh.loop dir n g e = Some ((ops, fl), e') ->
  forall m, exists rest fl2 e2,
    Bosh.loop dir (n + m) g e = Some ((ops ++ rest, fl2), e2) /\
    (fl = Return -> rest = [] /\ fl2 = Return /\ e2 = e').
Proof.
  revert g e ops fl e'.
  induction n as [|n IH]; intros g e ops fl e' Hl m.
  - inversion Hl; subst.
    destruct (loop_total dir m g e') as (rest & fl2 & e2 & Hm).
    exists rest, fl2, e2. split; [exact Hm|]. discriminate.
  - apply loop_step in Hl.
    destruct Hl as (ops1 & g1 & fl1 & e1 & Ht & _ & _ & _ & _ & Hrest).
    destruct fl1.
    + destruct Hrest as (ops2 & Hl2 & ->).
      destruct (IH _ _ _ _ _ Hl2 m) as (rest & fl2 & e2 & Hm & Hfin).
      exists rest, fl2, e2. split; [|exact Hfin].
      rewrite <- app_assoc.
      apply (loop_continue dir (n + m) g e ops1 g1 e1 _ fl2 e2 Ht Hm).
    + destruct Hrest as (-> & -> & ->).
      exists [], Return, e1. rewrite app_nil_r. split; [|auto].
      apply (loop_return dir (n + m) g e ops1 g1 e1 Ht).
Qed.

(** The goroutine closes the channel only in the iteration it returns
    from, as the last thing it does, right after a send. *)
Lemma loop_close_is_last (dir : Director.t) (n : nat) :
  forall g e ops fl e',
  Bosh.loop dir n g e = Some ((ops, fl), e') ->
  In Close ops ->
  fl = Return /\
  exists before p, ops = before ++ [Send p; Close] /\ ~ In Close before.
Proof.
  induction n as [|n IH]; intros g e ops fl e' Hl Hin.
  - inversion Hl; subst. destruct Hin.
  - apply loop_step in Hl.
    destruct Hl as (ops1 & g1 & fl1 & e1 & _ & Hrel & _ & _ & _ & Hrest).
    destruct fl1.
    + destruct Hrest as (ops2 & Hl2 & ->).
      destruct (tick_continue_not_converged dir g e ops1 g1 Hrel)
        as [_ Hnclose].
      apply in_app_or in Hin. destruct Hin as [Hin|Hin]; [contradiction|].
      destruct (IH _ _ _ _ _ Hl2 Hin) as (Hfl & before & p & -> & Hnb).
      split; [exact Hfl|]. exists (ops1 ++ before), p.
      split; [by rewrite app_assoc|]. rewrite in_app_iff. tauto.
    + destruct Hrest as (-> & -> & _).
      inversion Hrel as [ | l Hr Hne Hge | | ]; subst.
      split; [reflexivity|]. eexists [], _. split; [reflexivity|].
      intros [].
Qed.

(** X17: the close is final.  If the channel has been closed within [n]
    iterations, the close is the last channel operation of the session,
    it comes once, right after a send, and every longer window shows
    exactly the same channel operations and director calls: after the
    close the goroutine sends nothing, closes nothing and asks the
    director nothing. *)
Theorem stream_silent_after_close
    (dir : Director.t) (n : nat) (g : Goroutine) (e : Env)
    (ops : list ChanOp) (fl : Flow) (e' : Env) :
  Bosh.loop dir n g e = Some ((ops, fl), e') ->
  In Close ops ->
  (exists before p, ops = before ++ [Send p; Close] /\ ~ In Close before) /\
  forall m, Bosh.loop dir (n + m) g e = Some ((ops, Return), e').
Proof.
  intros Hl Hin.
  destruct (loop_close_is_last dir n g e ops fl e' Hl Hin) as (-> & Hlast).
  split; [exact Hlast|]. intros m.
  destruct (loop_extend dir n g e ops Return e' Hl m)
    as (rest & fl2 & e2 & Hm & Hfin).
  destruct (Hfin eq_refl) as (-> & -> & ->).
  rewrite app_nil_r in Hm. exact Hm.
Qed.

Lemma stream_silent_after_close_witness :
  Bosh.loop Scenario.rollout (4 + 6)
    {| g_start := 0; g_dep := Scenario.cf; g_total := 0 |}
    {| n_find := 3; n_vminfos := 0; n_releases := 0; n_now := 1;
       calls := [] |} =
  Some (([Send (release_snapshot ["cf"; "bosh-dns"] 1000);
          Send (instance_snapshot
                  [Scenario.vm "running" ["gorouter"];
                   Scenario.vm "starting" [];
                   Scenario.vm "running" ["uaa"; "consul"]] 2000);
          Send (instance_snapshot
                  [Scenario.vm "running" ["gorouter"];
                   Scenario.vm "running" ["uaa"]] 3000);
          Close], Return),
        {| n_find := 3; n_vminfos := 4; n_releases := 2; n_now := 4;
           calls := [OpVMInfos Scenario.cf; OpReleases;
                     OpVMInfos Scenario.cf; OpReleases;
                     OpVMInfos Scenario.cf; OpVMInfos Scenario.cf] |}).
Proof.
  apply (stream_silent_after_close Scenario.rollout 4
           {| g_start := 0; g_dep := Scenario.cf; g_total := 0 |}
           {| n_find := 3; n_vminfos := 0; n_releases := 0; n_now := 1;
              calls := [] |}
           _ Return).
  - reflexivity.
  - simpl. auto.
Defined.
